(** * SIFT_app: a Qt front end for SIFT template matching on a webcam feed

    Shallow embedding of [src/SIFT_app.py] (class [My_App]) and the
    properties of its slots.  The OpenCV and Qt primitives the script
    calls are opaque to it; the ones whose result the script inspects are
    fields of an environment record, the ones whose behaviour is fixed
    (channel reordering, image wrapping) are written out. *)

From Stdlib Require Import ZArith List String Bool Arith Lia.
From Stdlib Require Import Floats.PrimFloat Floats.FloatOps Floats.SpecFloat.
Import ListNotations.

Set Implicit Arguments.
Set Warnings "-inexact-float".
Local Open Scope string_scope.
Local Open Scope list_scope.

(* ================================================================== *)
(** ** Python values and exceptions *)

Module Py.

(** The exceptions the script can meet.  [CvError] is [cv2.error], with
    the name of the OpenCV function that raised it. *)
Inductive exn : Type :=
| AttributeError (attr : string)
| IndexError
| ValueError
| OverflowError
| TypeError
| ZeroDivisionError
| CvError (fn : string).

Inductive result (A : Type) : Type :=
| Ok (a : A)
| Raise (e : exn).
Arguments Ok {A} a.
Arguments Raise {A} e.

Definition is_ok {A} (r : result A) : bool :=
  match r with Ok _ => true | Raise _ => false end.

(** [xs[i]] on a Python list: negative indices count from the end, an
    index outside [-len, len) raises [IndexError]. *)
Definition index {A} (xs : list A) (i : Z) : result A :=
  let n := Z.of_nat (List.length xs) in
  let j := if (i <? 0)%Z then (n + i)%Z else i in
  if ((0 <=? j)%Z && (j <? n)%Z)%bool
  then match nth_error xs (Z.to_nat j) with
       | Some x => Ok x
       | None => Raise IndexError
       end
  else Raise IndexError.

(** [a, b = xs]: anything but two elements raises [ValueError]. *)
Definition unpack2 {A} (xs : list A) : result (A * A) :=
  match xs with
  | [a; b] => Ok (a, b)
  | _ => Raise ValueError
  end.

(** [a, b, c = xs]. *)
Definition unpack3 {A} (xs : list A) : result (A * A * A) :=
  match xs with
  | [a; b; c] => Ok (a, b, c)
  | _ => Raise ValueError
  end.

(** A Python [int] as the [float] nearest to it. *)
Definition float_of_int (z : Z) : float :=
  SF2Prim (binary_normalize prec emax z 0 false).

(** [a / b] on two ints (true division): a float, or
    [ZeroDivisionError].  For operands that a float holds exactly, as
    here, the correctly rounded quotient is the quotient of the floats. *)
Definition truediv (a b : Z) : result float :=
  if (b =? 0)%Z then Raise ZeroDivisionError
  else Ok (float_of_int a / float_of_int b)%float.

(** [int(x)] on a float: truncation toward zero; an infinity raises
    [OverflowError] and a NaN [ValueError]. *)
Definition int_of_float (x : float) : result Z :=
  match Prim2SF x with
  | S754_zero _ => Ok 0%Z
  | S754_finite s m e =>
      let a := if (0 <=? e)%Z then Z.shiftl (Z.pos m) e
               else Z.shiftr (Z.pos m) (- e) in
      Ok (if s then (- a)%Z else a)
  | S754_infinity _ => Raise OverflowError
  | S754_nan => Raise ValueError
  end.

End Py.
Import Py.

(* ================================================================== *)
(** ** Images and the display bitmap *)

(** A numpy array of [uint8]: its shape and its elements in row-major
    order.  A colour image has shape [[h; w; 3]], a grey one [[h; w]]. *)
Record ndarray : Type := { shape : list nat; data : list Byte.byte }.

Module Qt.

Inductive Format : Type := Format_RGB888.

(** [QImage(data, width, height, bytesPerLine, format)]: a view of
    [data] in which row [y] starts at byte [y * bytesPerLine]. *)
Record QImage : Type := {
  bits : list Byte.byte;
  width : nat;
  height : nat;
  bytesPerLine : nat;
  format : Format }.

(** A pixmap: its size and its pixels, row by row, three bytes
    (red, green, blue) per pixel.  The null pixmap has size 0 x 0. *)
Record QPixmap : Type := {
  pm_width : nat;
  pm_height : nat;
  pm_rgb : list Byte.byte }.

Definition scanLine (q : QImage) (y : nat) : list Byte.byte :=
  firstn (3 * width q) (skipn (y * bytesPerLine q) (bits q)).

(** [QPixmap.fromImage]: the pixels of each scan line, without the
    padding a stride wider than the row would leave. *)
Definition fromImage (q : QImage) : QPixmap :=
  {| pm_width := width q;
     pm_height := height q;
     pm_rgb := flat_map (scanLine q) (seq 0 (height q)) |}.

(** [QTimer]: whether it is running, and its interval. *)
Record QTimer : Type := { isActive : bool; interval : Z }.

End Qt.
Import Qt.

Module Cv.

(** [cv2.COLOR_BGR2RGB] on three-channel data: the first and third
    byte of every pixel change places. *)
Fixpoint bgr2rgb (d : list Byte.byte) : list Byte.byte :=
  match d with
  | b :: g :: r :: rest => r :: g :: b :: bgr2rgb rest
  | _ => []
  end.

(** The same conversion code on four-channel (BGRA) data: the alpha
    byte is dropped. *)
Fixpoint bgra2rgb (d : list Byte.byte) : list Byte.byte :=
  match d with
  | b :: g :: r :: _ :: rest => r :: g :: b :: bgra2rgb rest
  | _ => []
  end.

(** [cv2.cvtColor(src, cv2.COLOR_BGR2RGB)].  [None] (an empty source),
    an empty array or a source without three or four channels raises. *)
Definition cvtColor_BGR2RGB (src : option ndarray) : result ndarray :=
  match src with
  | None => Raise (CvError "cvtColor")
  | Some img =>
      match shape img with
      | [h; w; c] =>
          if (h * w =? 0)%nat then Raise (CvError "cvtColor")
          else if (c =? 3)%nat
               then Ok {| shape := [h; w; 3]; data := bgr2rgb (data img) |}
          else if (c =? 4)%nat
               then Ok {| shape := [h; w; 3]; data := bgra2rgb (data img) |}
          else Raise (CvError "cvtColor")
      | _ => Raise (CvError "cvtColor")
      end
  end.

End Cv.

(** [My_App.convert_cv_to_pixmap] (lines 59-65).  The method reads and
    writes no attribute of [self]. *)
Definition convert_cv_to_pixmap (cv_img : option ndarray) : result QPixmap :=
  match Cv.cvtColor_BGR2RGB cv_img with
  | Raise e => Raise e
  | Ok cv_img =>
      match unpack3 (shape cv_img) with
      | Raise e => Raise e
      | Ok (height, width, channel) =>
          let bytesPerLine := channel * width in
          let q_img := {| bits := data cv_img; width := width;
                          height := height; bytesPerLine := bytesPerLine;
                          format := Format_RGB888 |} in
          Ok (fromImage q_img)
      end
  end.

(* ================================================================== *)
(** ** What OpenCV and the desktop hand to the script *)

Module Cv2.

Definition Point : Type := (float * float)%type.

Record KeyPoint : Type := { pt : Point }.

(** [cv2.DMatch]: the keypoint indices in the query (template) and
    train (frame) sets, and the descriptor distance. *)
Record DMatch : Type := { queryIdx : Z; trainIdx : Z; distance : float }.

Definition Descriptors : Type := list (list float).
Definition Matrix : Type := list (list float).

(** One timer tick as OpenCV answers it.  [read] is the pair
    [VideoCapture.read()] returns; a Python [None] is [None]. *)
Record Vision : Type := {
  read : bool * option ndarray;
  bgr2gray : ndarray -> ndarray;
  imread : string -> option ndarray;
  detectAndCompute :
    option ndarray -> result (list KeyPoint * option Descriptors);
  drawKeypoints : option ndarray -> list KeyPoint -> result ndarray;
  knnMatch :
    option Descriptors -> option Descriptors -> result (list (list DMatch));
  findHomography :
    list Point -> list Point -> result (option Matrix * option ndarray);
  perspectiveTransform : list Point -> Matrix -> result (list Point);
  polylines : option ndarray -> list Point -> result ndarray;
  drawMatches :
    ndarray -> list KeyPoint -> ndarray -> list KeyPoint ->
    list DMatch -> result ndarray }.

(** [cv2.cvtColor(src, cv2.COLOR_BGR2GRAY)]: the grey values are the
    library's; a missing or empty source, or one without three or four
    channels, raises. *)
Definition cvtColor_BGR2GRAY (cv : Vision) (src : option ndarray)
  : result ndarray :=
  match src with
  | None => Raise (CvError "cvtColor")
  | Some img =>
      match shape img with
      | [h; w; c] =>
          if (h * w =? 0)%nat then Raise (CvError "cvtColor")
          else if ((c =? 3)%nat || (c =? 4)%nat)%bool
               then Ok (bgr2gray cv img)
          else Raise (CvError "cvtColor")
      | _ => Raise (CvError "cvtColor")
      end
  end.

End Cv2.
Import Cv2.

(** One run of the file dialog and the file system behind [QPixmap(path)]. *)
Record Desktop : Type := {
  exec_ : bool;
  selectedFiles : list string;
  load_pixmap : string -> QPixmap }.

(** What is fixed outside the script when the constructor runs.  The
    widgets' start-up contents are what [loadUi("./SIFT_app.ui", self)]
    reads from the layout file, which is not part of the sources.  The
    last field is the Qt binding's treatment of a float passed where the
    C++ signature takes an int: PyQt5 converts it with [int()] under
    Python up to 3.9 ([true]) and raises [TypeError] from Python 3.10 on
    ([false]). *)
Record Layout : Type := {
  ui_toggle_text : string;
  ui_template_pixmap : option QPixmap;
  ui_live_pixmap : option QPixmap;
  converts_float_to_int : bool }.

(** A float handed to a binding method that takes an int. *)
Definition int_argument (ui : Layout) (x : float) : result Z :=
  if converts_float_to_int ui then int_of_float x else Raise TypeError.

(* ================================================================== *)
(** ** The application object *)

(** The attributes of [My_App] the slots touch.  [template_path] is
    [None] while the attribute does not exist: the constructor does not
    create it. *)
Record My_App : Type := {
  _cam_id : Z;
  _cam_fps : Z;
  _is_cam_enabled : bool;
  _is_template_loaded : bool;
  template_path : option string;
  _timer : QTimer;
  toggle_cam_button : string;
  template_label : option QPixmap;
  live_image_label : option QPixmap }.

Definition set_is_cam_enabled (b : bool) (s : My_App) : My_App :=
  {| _cam_id := _cam_id s; _cam_fps := _cam_fps s;
     _is_cam_enabled := b;
     _is_template_loaded := _is_template_loaded s;
     template_path := template_path s; _timer := _timer s;
     toggle_cam_button := toggle_cam_button s;
     template_label := template_label s;
     live_image_label := live_image_label s |}.

Definition set_template_path (p : string) (s : My_App) : My_App :=
  {| _cam_id := _cam_id s; _cam_fps := _cam_fps s;
     _is_cam_enabled := _is_cam_enabled s;
     _is_template_loaded := _is_template_loaded s;
     template_path := Some p; _timer := _timer s;
     toggle_cam_button := toggle_cam_button s;
     template_label := template_label s;
     live_image_label := live_image_label s |}.

Definition set_timer_active (b : bool) (s : My_App) : My_App :=
  {| _cam_id := _cam_id s; _cam_fps := _cam_fps s;
     _is_cam_enabled := _is_cam_enabled s;
     _is_template_loaded := _is_template_loaded s;
     template_path := template_path s;
     _timer := {| isActive := b; interval := interval (_timer s) |};
     toggle_cam_button := toggle_cam_button s;
     template_label := template_label s;
     live_image_label := live_image_label s |}.

Definition set_toggle_text (t : string) (s : My_App) : My_App :=
  {| _cam_id := _cam_id s; _cam_fps := _cam_fps s;
     _is_cam_enabled := _is_cam_enabled s;
     _is_template_loaded := _is_template_loaded s;
     template_path := template_path s; _timer := _timer s;
     toggle_cam_button := t;
     template_label := template_label s;
     live_image_label := live_image_label s |}.

Definition set_template_label (p : QPixmap) (s : My_App) : My_App :=
  {| _cam_id := _cam_id s; _cam_fps := _cam_fps s;
     _is_cam_enabled := _is_cam_enabled s;
     _is_template_loaded := _is_template_loaded s;
     template_path := template_path s; _timer := _timer s;
     toggle_cam_button := toggle_cam_button s;
     template_label := Some p;
     live_image_label := live_image_label s |}.

Definition set_live_image_label (p : QPixmap) (s : My_App) : My_App :=
  {| _cam_id := _cam_id s; _cam_fps := _cam_fps s;
     _is_cam_enabled := _is_cam_enabled s;
     _is_template_loaded := _is_template_loaded s;
     template_path := template_path s; _timer := _timer s;
     toggle_cam_button := toggle_cam_button s;
     template_label := template_label s;
     live_image_label := Some p |}.

(** The constructor (lines 29-53).  Line 53 hands the float that
    [100 / self._cam_fps] yields to [setInterval], which takes an int:
    the binding converts it or raises [TypeError] ([int_argument]).
    The capture size requested on lines 47-48 is advisory and leaves no
    trace in the object. *)
Definition __init__ (ui : Layout) : result My_App :=
  let cam_id := 0%Z in
  let cam_fps := 2%Z in
  match truediv 100 cam_fps with
  | Raise e => Raise e
  | Ok period =>
      match int_argument ui period with
      | Raise e => Raise e
      | Ok msec =>
          Ok {| _cam_id := cam_id; _cam_fps := cam_fps;
                _is_cam_enabled := false;
                _is_template_loaded := false;
                template_path := None;
                _timer := {| isActive := false; interval := msec |};
                toggle_cam_button := ui_toggle_text ui;
                template_label := ui_template_pixmap ui;
                live_image_label := ui_live_pixmap ui |}
      end
  end.

(* ================================================================== *)
(** ** Slots as state transformers *)

Inductive Subject : Type := Template | Frame.
Inductive Label : Type := Template_label | Live_image_label.

(** The library and toolkit calls a slot makes, in order. *)
Inductive Call : Type :=
| E_read
| E_cvtColor
| E_imread
| E_detectAndCompute (on : Subject)
| E_drawKeypoints (on : Subject)
| E_knnMatch
| E_findHomography
| E_perspectiveTransform
| E_polylines
| E_drawMatches
| E_setPixmap (label : Label)
| E_setText
| E_timer_start
| E_timer_stop
| E_dialog_exec
| E_QPixmap.

(** One run of a slot: the object afterwards, the calls made, the lines
    printed to standard output, and the value returned or the exception
    that left the slot. *)
Record Run (A : Type) : Type := {
  final : My_App;
  calls : list Call;
  printed : list string;
  outcome : result A }.

Definition M (A : Type) : Type := My_App -> Run A.

Definition ret {A} (a : A) : M A := fun s =>
  {| final := s; calls := []; printed := []; outcome := Ok a |}.

Definition raise {A} (e : exn) : M A := fun s =>
  {| final := s; calls := []; printed := []; outcome := Raise e |}.

Definition bind {A B} (m : M A) (k : A -> M B) : M B := fun s =>
  let r := m s in
  match outcome r with
  | Raise e =>
      {| final := final r; calls := calls r; printed := printed r;
         outcome := Raise e |}
  | Ok a =>
      let r' := k a (final r) in
      {| final := final r'; calls := calls r ++ calls r';
         printed := printed r ++ printed r'; outcome := outcome r' |}
  end.

Notation "x <- m ;; k" := (bind m (fun x => k))
  (at level 61, m at next level, right associativity).
Notation "' pat <- m ;; k" := (bind m (fun x => match x with pat => k end))
  (at level 61, pat pattern, m at next level, right associativity).
Notation "m ;; k" := (bind m (fun _ => k))
  (at level 61, right associativity).

Definition lift {A} (r : result A) : M A :=
  match r with Ok a => ret a | Raise e => raise e end.

Definition call (c : Call) : M unit := fun s =>
  {| final := s; calls := [c]; printed := []; outcome := Ok tt |}.

Definition print (line : string) : M unit := fun s =>
  {| final := s; calls := []; printed := [line]; outcome := Ok tt |}.

Definition self : M My_App := fun s =>
  {| final := s; calls := []; printed := []; outcome := Ok s |}.

Definition assign (f : My_App -> My_App) : M unit := fun s =>
  {| final := f s; calls := []; printed := []; outcome := Ok tt |}.

(** [self.template_path] read as an expression. *)
Definition get_template_path : M string :=
  s <- self ;;
  match template_path s with
  | Some p => ret p
  | None => raise (AttributeError "template_path")
  end.

Definition setPixmap (l : Label) (p : QPixmap) : M unit :=
  call (E_setPixmap l) ;;
  assign match l with
         | Template_label => set_template_label p
         | Live_image_label => set_live_image_label p
         end.

(** [[f(x) for x in xs]] with an [f] that can raise. *)
Fixpoint comprehension {A B} (f : A -> result B) (xs : list A)
  : result (list B) :=
  match xs with
  | [] => Ok []
  | x :: xs' =>
      match f x with
      | Raise e => Raise e
      | Ok y =>
          match comprehension f xs' with
          | Raise e => Raise e
          | Ok ys => Ok (y :: ys)
          end
      end
  end.

(** Lines 99-102: the loop over [matches], with [poi] the list built so
    far.  Each element is unpacked into [m, n]. *)
Fixpoint ratio_loop (matches : list (list DMatch)) (poi : list DMatch)
  : result (list DMatch) :=
  match matches with
  | [] => Ok poi
  | mn :: rest =>
      match unpack2 mn with
      | Raise e => Raise e
      | Ok (m, n) =>
          if (distance m <? 0.65 * distance n)%float
          then ratio_loop rest (poi ++ [m])
          else ratio_loop rest poi
      end
  end.

(** What lines 80-102 leave in the local variables. *)
Record Matched : Type := {
  frame : option ndarray;
  img_templ : ndarray;
  keyp_img_templ : list KeyPoint;
  grayframe : ndarray;
  keyp_gframe : list KeyPoint;
  poi : list DMatch }.

(** [SLOT_query_camera], lines 80-102: read a frame, detect on the
    template and on the frame, match, filter.  Building the detector and
    the matcher (lines 85 and 92-94) touches neither the images nor the
    object. *)
Definition detect_and_filter (cv : Vision) : M Matched :=
  call E_read ;;
  let '(_, frame) := read cv in
  call E_cvtColor ;;
  grayframe <- lift (cvtColor_BGR2GRAY cv frame) ;;
  path <- get_template_path ;;
  call E_imread ;;
  let img_templ := imread cv path in
  call (E_detectAndCompute Template) ;;
  ' (keyp_img_templ, desc_img_templ) <- lift (detectAndCompute cv img_templ) ;;
  call (E_detectAndCompute Frame) ;;
  ' (keyp_gframe, desc_gframe) <-
      lift (detectAndCompute cv (Some grayframe)) ;;
  call (E_drawKeypoints Template) ;;
  img_templ <- lift (drawKeypoints cv img_templ keyp_img_templ) ;;
  call (E_drawKeypoints Frame) ;;
  grayframe <- lift (drawKeypoints cv (Some grayframe) keyp_gframe) ;;
  call E_knnMatch ;;
  matches <- lift (knnMatch cv desc_img_templ desc_gframe) ;;
  poi <- lift (ratio_loop matches []) ;;
  ret {| frame := frame; img_templ := img_templ;
         keyp_img_templ := keyp_img_templ; grayframe := grayframe;
         keyp_gframe := keyp_gframe; poi := poi |}.

(** [[kps[i].pt for m in poi]] with the index [i] read off each match. *)
Definition points_of (kps : list KeyPoint) (idx : DMatch -> Z)
  (poi : list DMatch) : result (list Point) :=
  comprehension
    (fun m => match index kps (idx m) with
              | Ok kp => Ok (pt kp)
              | Raise e => Raise e
              end) poi.

(** [mask.ravel().tolist()]: [None] has no attribute [ravel]. *)
Definition ravel_tolist (mask : option ndarray) : result (list Byte.byte) :=
  match mask with
  | Some a => Ok (data a)
  | None => Raise (AttributeError "ravel")
  end.

(** [SLOT_query_camera], lines 106-129: the homography overlay when more
    than four matches survive, the match picture otherwise.  The packing
    of point lists into float32 and int32 arrays is left to the library
    calls that receive them; [perspectiveTransform] needs a matrix and
    raises on [None]. *)
Definition render (cv : Vision) (x : Matched) : M unit :=
  if (4 <? List.length (poi x))%nat then
    query_pts <- lift (points_of (keyp_img_templ x) queryIdx (poi x)) ;;
    train_pts <- lift (points_of (keyp_gframe x) trainIdx (poi x)) ;;
    call E_findHomography ;;
    ' (matrix, mask) <- lift (findHomography cv query_pts train_pts) ;;
    matches_mask <- lift (ravel_tolist mask) ;;
    ' (h, w, c) <- lift (unpack3 (shape (img_templ x))) ;;
    let h := float_of_int (Z.of_nat h) in
    let w := float_of_int (Z.of_nat w) in
    let pts := [(0, 0); (0, h); (w, h); (w, 0)]%float in
    call E_perspectiveTransform ;;
    dst <- lift match matrix with
                | Some mx => perspectiveTransform cv pts mx
                | None => Raise (CvError "perspectiveTransform")
                end ;;
    call E_polylines ;;
    homography <- lift (polylines cv (frame x) dst) ;;
    pixmap <- lift (convert_cv_to_pixmap (Some homography)) ;;
    setPixmap Live_image_label pixmap
  else
    call E_drawMatches ;;
    match_img <- lift (drawMatches cv (img_templ x) (keyp_img_templ x)
                         (grayframe x) (keyp_gframe x) (poi x)) ;;
    pixmap <- lift (convert_cv_to_pixmap (Some match_img)) ;;
    setPixmap Live_image_label pixmap.

(** [SLOT_query_camera] (lines 77-129), the timer's callback. *)
Definition SLOT_query_camera (cv : Vision) : M unit :=
  x <- detect_and_filter cv ;;
  render cv x.

(** [SLOT_browse_button] (lines 137-148): the slot's own statements,
    with [exec_] the answer the modal dialog returns.  Timer ticks that
    Qt delivers while the dialog is open run [SLOT_query_camera] on
    their own and are not part of this run; they write only the
    live-image label. *)
Definition SLOT_browse_button (dlg : Desktop) : M unit :=
  call E_dialog_exec ;;
  (if exec_ dlg
   then path <- lift (index (selectedFiles dlg) 0) ;;
        assign (set_template_path path)
   else ret tt) ;;
  path <- get_template_path ;;
  call E_QPixmap ;;
  let pixmap := load_pixmap dlg path in
  setPixmap Template_label pixmap ;;
  path <- get_template_path ;;
  print ("Loaded template image file: " ++ path)%string.

(** [SLOT_toggle_camera] (lines 153-161). *)
Definition SLOT_toggle_camera : M unit :=
  s <- self ;;
  if _is_cam_enabled s then
    call E_timer_stop ;;
    assign (set_timer_active false) ;;
    assign (set_is_cam_enabled false) ;;
    call E_setText ;;
    assign (set_toggle_text "&Enable camera")
  else
    call E_timer_start ;;
    assign (set_timer_active true) ;;
    assign (set_is_cam_enabled true) ;;
    call E_setText ;;
    assign (set_toggle_text "&Disable camera").

(* ================================================================== *)
(** ** The event loop *)

(** What the Qt event loop can deliver: a click on either button, or
    the timer's timeout. *)
Inductive Event : Type :=
| Browse_clicked (dlg : Desktop)
| Toggle_clicked
| Timeout (cv : Vision).

Definition handle (ev : Event) : M unit :=
  match ev with
  | Browse_clicked dlg => SLOT_browse_button dlg
  | Toggle_clicked => SLOT_toggle_camera
  | Timeout cv => SLOT_query_camera cv
  end.

(** A timeout is delivered only while the timer runs. *)
Definition deliverable (s : My_App) (ev : Event) : bool :=
  match ev with
  | Timeout _ => isActive (_timer s)
  | _ => true
  end.

(** The object after a sequence of events; an event that cannot be
    delivered is dropped.  An exception leaves the object as the slot
    had it when it was raised. *)
Fixpoint after (evs : list Event) (s : My_App) : My_App :=
  match evs with
  | [] => s
  | ev :: evs' =>
      after evs' (if deliverable s ev then final (handle ev s) else s)
  end.

(** The states of a run started from the layout [ui]. *)
Inductive reachable (ui : Layout) : My_App -> Prop :=
| reach_init s0 : __init__ ui = Ok s0 -> reachable ui s0
| reach_step s ev :
    reachable ui s -> deliverable s ev = true ->
    reachable ui (final (handle ev s)).

(** The camera state and its button, as the toggle action sees them. *)
Definition camera_view (s : My_App) : bool * bool * string :=
  (_is_cam_enabled s, isActive (_timer s), toggle_cam_button s).

(** The button text that announces the next action. *)
Definition next_action_text (enabled : bool) : string :=
  if enabled then "&Disable camera" else "&Enable camera".

(** The flag, the timer and the button agree. *)
Definition coherent (s : My_App) : Prop :=
  isActive (_timer s) = _is_cam_enabled s /\
  toggle_cam_button s = next_action_text (_is_cam_enabled s).

(** The ratio test of the matcher's contract, on one pair. *)
Definition passes_ratio_test (p : DMatch * DMatch) : bool :=
  (distance (fst p) <? 0.65 * distance (snd p))%float.

(** Every match of [poi] names a keypoint of the template and one of
    the frame, as the matcher's rows do. *)
Definition indices_in_range (x : Matched) : bool :=
  forallb (fun m => is_ok (index (keyp_img_templ x) (queryIdx m)) &&
                    is_ok (index (keyp_gframe x) (trainIdx m)))
          (poi x).

(** A colour image as OpenCV delivers it: [h] rows of [w] pixels of
    three bytes. *)
Definition colour_image (img : ndarray) (h w : nat) : Prop :=
  shape img = [h; w; 3] /\ 0 < h /\ 0 < w /\
  List.length (data img) = h * w * 3.

(** The estimator found no transform: it returns [None] for the matrix. *)
Definition estimator_fails (cv : Vision) : Prop :=
  forall src dst, exists mask, findHomography cv src dst = Ok (None, mask).

Definition loaded_line (path : string) : string :=
  ("Loaded template image file: " ++ path)%string.

(** [avoids c m]: no run of [m] makes the call [c]. *)
Definition avoids {A} (c : Call) (m : M A) : Prop :=
  forall s, ~ In c (calls (m s)).

(** [quiet m]: no run of [m] prints. *)
Definition quiet {A} (m : M A) : Prop :=
  forall s, printed (m s) = [].

(** [keeps f m]: no run of [m] changes the part [f] of the object. *)
Definition keeps {A X} (f : My_App -> X) (m : M A) : Prop :=
  forall s, f (final (m s)) = f s.

(** The calls that make up feature matching: detection and the
    nearest-neighbour search. *)
Definition feature_matching (c : Call) : bool :=
  match c with
  | E_detectAndCompute _ | E_knnMatch => true
  | _ => false
  end.

(** The part of the object that only the toggle action may change. *)
Definition camera_state (s : My_App) : bool * QTimer :=
  (_is_cam_enabled s, _timer s).

(** The number of clicks on the toggle button in a sequence of events. *)
Fixpoint toggles (evs : list Event) : nat :=
  match evs with
  | [] => 0
  | Toggle_clicked :: evs' => S (toggles evs')
  | _ :: evs' => toggles evs'
  end.

(** [renders m]: a run of [m] that raises leaves the object as it was,
    and a run that returns has only put a pixmap in the live label. *)
Definition renders {A} (m : M A) : Prop :=
  forall s,
    match outcome (m s) with
    | Raise _ => final (m s) = s
    | Ok _ => exists p, final (m s) = set_live_image_label p s
    end.

(** A four-channel (BGRA) image of [h] rows and [w] columns. *)
Definition bgra_image (img : ndarray) (h w : nat) : Prop :=
  shape img = [h; w; 4] /\ 0 < h /\ 0 < w /\
  List.length (data img) = h * w * 4.

(** The corners of an [h] by [w] template, as line 116 lists them. *)
Definition template_corners (h w : nat) : list Point :=
  let h := float_of_int (Z.of_nat h) in
  let w := float_of_int (Z.of_nat w) in
  [(0, 0); (0, h); (w, h); (w, 0)]%float.

(* ================================================================== *)
(** ** Sample inputs *)

Module Sample.

Import Byte.

(** A frame of one row and two pixels. *)
Definition bgr_frame : ndarray :=
  {| shape := [1; 2; 3]; data := [x01; x02; x03; x0a; x0b; x0c] |}.

Definition grey (img : ndarray) : ndarray :=
  {| shape := firstn 2 (shape img); data := firstn 2 (data img) |}.

Definition kp (x y : float) : KeyPoint := {| pt := (x, y) |}.

Definition six_keypoints : list KeyPoint :=
  [kp 0 0; kp 1 0; kp 0 1; kp 1 1; kp 2 1; kp 2 2]%float.

Definition dm (q t : Z) (d : float) : DMatch :=
  {| queryIdx := q; trainIdx := t; distance := d |}.

(** A pair whose best match passes the ratio test, and one whose best
    match does not. *)
Definition good (i : Z) : list DMatch := [dm i i 1; dm i 0 2]%float.
Definition poor (i : Z) : list DMatch := [dm i i 2; dm i 0 3]%float.

Definition five_good : list (list DMatch) :=
  [good 0; poor 5; good 1; good 2; good 3; good 4].
Definition three_good : list (list DMatch) :=
  [good 0; poor 5; good 1; good 2].

Definition nonempty (img : option ndarray) : result ndarray :=
  match img with
  | Some a => Ok bgr_frame
  | None => Raise (CvError "empty")
  end.

(** A tick in which the camera answers [rd], the matcher [matches]
    and the estimator [hom]. *)
Definition vision (rd : bool * option ndarray)
  (matches : list (list DMatch))
  (hom : option Matrix * option ndarray) : Vision :=
  {| read := rd;
     bgr2gray := grey;
     imread := fun _ => Some (grey bgr_frame);
     detectAndCompute := fun img =>
       match img with
       | Some _ => Ok (six_keypoints, Some [])
       | None => Raise (CvError "detectAndCompute")
       end;
     drawKeypoints := fun img _ => nonempty img;
     knnMatch := fun _ _ => Ok matches;
     findHomography := fun _ _ => Ok hom;
     perspectiveTransform := fun pts _ => Ok pts;
     polylines := fun img _ => nonempty img;
     drawMatches := fun _ _ _ _ _ => Ok bgr_frame |}.

Definition identity3 : Matrix := [[1; 0; 0]; [0; 1; 0]; [0; 0; 1]]%float.
Definition inliers : ndarray :=
  {| shape := [5; 1]; data := [x01; x01; x01; x01; x01] |}.

Definition tick_overlay : Vision :=
  vision (true, Some bgr_frame) five_good (Some identity3, Some inliers).
Definition tick_few : Vision :=
  vision (true, Some bgr_frame) three_good (Some identity3, Some inliers).
Definition tick_degenerate : Vision :=
  vision (true, Some bgr_frame) five_good (None, None).
Definition tick_no_frame : Vision :=
  vision (false, None) five_good (Some identity3, Some inliers).

(** Five good pairs, one of which names a keypoint that does not exist. *)
Definition five_stray : list (list DMatch) :=
  [good 0; good 1; good 9; good 3; good 4].
Definition tick_stray : Vision :=
  vision (true, Some bgr_frame) five_stray (Some identity3, Some inliers).

(** One row of two BGRA pixels. *)
Definition bgra_frame : ndarray :=
  {| shape := [1; 2; 4];
     data := [x01; x02; x03; xff; x0a; x0b; x0c; xff] |}.

Definition null_pixmap : QPixmap :=
  {| pm_width := 0; pm_height := 0; pm_rgb := [] |}.

Definition confirm (path : string) : Desktop :=
  {| exec_ := true; selectedFiles := [path];
     load_pixmap := fun _ => null_pixmap |}.
Definition cancel : Desktop :=
  {| exec_ := false; selectedFiles := [];
     load_pixmap := fun _ => null_pixmap |}.

Definition layout : Layout :=
  {| ui_toggle_text := "&Enable camera";
     ui_template_pixmap := None;
     ui_live_pixmap := None;
     converts_float_to_int := true |}.

(** A layout that labels the toggle button differently. *)
Definition plain_layout : Layout :=
  {| ui_toggle_text := "Toggle camera";
     ui_template_pixmap := None;
     ui_live_pixmap := None;
     converts_float_to_int := true |}.


(** The object the constructor builds from [layout]. *)
Definition fresh : My_App :=
  {| _cam_id := 0; _cam_fps := 2;
     _is_cam_enabled := false; _is_template_loaded := false;
     template_path := None;
     _timer := {| isActive := false; interval := 50 |};
     toggle_cam_button := "&Enable camera";
     template_label := None; live_image_label := None |}.

(** A template chosen, the camera switched on. *)
Definition watching : My_App :=
  after [Browse_clicked (confirm "box.png"); Toggle_clicked] fresh.

End Sample.

(* ================================================================== *)
(** ** Facts about the display conversion *)

Section Conversion.

Lemma bgr2rgb_length (k : nat) : forall d,
  List.length d = k * 3 -> List.length (Cv.bgr2rgb d) = k * 3.
Proof.
  induction k as [|k IH]; intros d Hd.
  - destruct d; [reflexivity | discriminate].
  - destruct d as [|b [|g [|r rest]]]; simpl in Hd; try discriminate.
    simpl. rewrite (IH rest); lia.
Qed.

(** Pixel [i] of the output is pixel [i] of the input read backwards. *)
Lemma bgr2rgb_pixel (i : nat) : forall d z,
  3 * i + 2 < List.length d ->
  nth (3 * i) (Cv.bgr2rgb d) z = nth (3 * i + 2) d z /\
  nth (3 * i + 1) (Cv.bgr2rgb d) z = nth (3 * i + 1) d z /\
  nth (3 * i + 2) (Cv.bgr2rgb d) z = nth (3 * i) d z.
Proof.
  induction i as [|i IH]; intros d z Hd.
  - destruct d as [|b [|g [|r rest]]]; simpl in Hd; try lia.
    repeat split.
  - destruct d as [|b [|g [|r rest]]]; simpl in Hd; try lia.
    replace (3 * S i) with (S (S (S (3 * i)))) by lia.
    specialize (IH rest z ltac:(lia)).
    cbn [Cv.bgr2rgb nth Nat.add]. exact IH.
Qed.

Lemma flat_map_shift {A} (f : nat -> list A) (n : nat) : forall a,
  flat_map f (seq (S a) n) = flat_map (fun y => f (S y)) (seq a n).
Proof.
  induction n as [|n IH]; intro a; simpl; [reflexivity|].
  now rewrite IH.
Qed.

(** Rows of [n] bytes laid end to end with stride [n] are the buffer
    itself. *)
Lemma rows_cover (h n : nat) : forall l : list Byte.byte,
  List.length l = h * n ->
  flat_map (fun y => firstn n (skipn (y * n) l)) (seq 0 h) = l.
Proof.
  induction h as [|h IH]; intros l Hl.
  - destruct l; [reflexivity | discriminate].
  - simpl seq. cbn [flat_map]. rewrite flat_map_shift.
    transitivity (firstn n l ++ skipn n l); [|apply firstn_skipn].
    f_equal.
    rewrite <- (IH (skipn n l)).
    + apply flat_map_ext. intro y.
      replace (S y * n) with (y * n + n) by lia.
      now rewrite skipn_skipn.
    + rewrite length_skipn. simpl in Hl. lia.
Qed.

End Conversion.

(** C7.  [convert_cv_to_pixmap] is a function of its argument alone: on
    a well-formed colour image of [h] rows and [w] columns it returns a
    pixmap of width [w] and height [h] whose bytes are the image's with
    the first and third byte of every pixel exchanged (B,G,R to R,G,B),
    and any image with the same shape and bytes gives the same pixmap. *)
Theorem convert_cv_to_pixmap_reorders (img : ndarray) (h w : nat) :
  colour_image img h w ->
  exists pm,
    convert_cv_to_pixmap (Some img) = Ok pm /\
    pm_width pm = w /\ pm_height pm = h /\
    List.length (pm_rgb pm) = h * w * 3 /\
    (forall i z, i < h * w ->
       nth (3 * i) (pm_rgb pm) z = nth (3 * i + 2) (data img) z /\
       nth (3 * i + 1) (pm_rgb pm) z = nth (3 * i + 1) (data img) z /\
       nth (3 * i + 2) (pm_rgb pm) z = nth (3 * i) (data img) z) /\
    (forall img', shape img' = shape img -> data img' = data img ->
       convert_cv_to_pixmap (Some img') = Ok pm).
Proof.
  intros (Hshape & Hh & Hw & Hlen).
  assert (Hlen' : List.length (Cv.bgr2rgb (data img)) = h * (3 * w)).
  { rewrite (@bgr2rgb_length (h * w)); lia. }
  assert (Hnz : (h * w =? 0)%nat = false) by (apply Nat.eqb_neq; nia).
  assert (Hrows :
    flat_map (scanLine {| bits := Cv.bgr2rgb (data img); width := w;
                          height := h; bytesPerLine := 3 * w;
                          format := Format_RGB888 |}) (seq 0 h)
    = Cv.bgr2rgb (data img)).
  { unfold scanLine. cbn [bits width bytesPerLine].
    now apply rows_cover. }
  assert (Hrun : forall img', shape img' = shape img -> data img' = data img ->
    convert_cv_to_pixmap (Some img') =
    Ok {| pm_width := w; pm_height := h;
          pm_rgb := Cv.bgr2rgb (data img) |}).
  { intros img' Hs Hd. unfold convert_cv_to_pixmap, Cv.cvtColor_BGR2RGB.
    rewrite Hs, Hshape, Hnz, Hd. cbn -[Nat.mul flat_map seq].
    unfold fromImage. cbn [width height]. now rewrite Hrows. }
  eexists. split; [apply Hrun; reflexivity|].
  cbn [pm_width pm_height pm_rgb].
  repeat split; try assumption; try lia.
  - apply bgr2rgb_pixel; lia.
  - apply bgr2rgb_pixel; lia.
  - apply bgr2rgb_pixel; lia.
Qed.

Lemma convert_cv_to_pixmap_witness :
  colour_image Sample.bgr_frame 1 2 /\
  exists pm, convert_cv_to_pixmap (Some Sample.bgr_frame) = Ok pm /\
             pm_width pm = 2 /\ pm_height pm = 1.
Proof.
  assert (H : colour_image Sample.bgr_frame 1 2).
  { unfold colour_image. simpl. repeat split; lia. }
  split; [exact H|].
  destruct (convert_cv_to_pixmap_reorders H) as (pm & Hpm & Hw & Hh & _).
  exists pm. auto.
Defined.

(* ================================================================== *)
(** ** The ratio filter *)

Lemma ratio_loop_acc (pairs : list (DMatch * DMatch)) : forall acc,
  ratio_loop (map (fun p => [fst p; snd p]) pairs) acc =
  Ok (acc ++ map fst (filter passes_ratio_test pairs)).
Proof.
  induction pairs as [|[m n] pairs IH]; intro acc; simpl.
  - now rewrite app_nil_r.
  - unfold passes_ratio_test at 1. simpl.
    destruct (distance m <? 0.65 * distance n)%float.
    + rewrite IH. simpl. now rewrite <- app_assoc.
    + apply IH.
Qed.

Example ratio_loop_sample :
  ratio_loop Sample.three_good [] =
  Ok [Sample.dm 0 0 1; Sample.dm 1 1 1; Sample.dm 2 2 1].
Proof. vm_compute. reflexivity. Qed.

(** An entry with a single neighbour cannot be unpacked. *)
Example ratio_loop_short_entry :
  ratio_loop [Sample.good 0; [Sample.dm 1 1 1]] [] = Raise ValueError.
Proof. vm_compute. reflexivity. Qed.

(** C2.  On a list of (best, second best) pairs the filter returns the
    best matches of exactly the pairs with
    [best.distance < 0.65 * secondBest.distance], in input order. *)
Theorem ratio_filter_keeps_exactly (pairs : list (DMatch * DMatch)) :
  ratio_loop (map (fun p => [fst p; snd p]) pairs) [] =
  Ok (map fst (filter passes_ratio_test pairs)).
Proof. apply ratio_loop_acc. Qed.

(* ================================================================== *)
(** ** The constructor *)



(* ================================================================== *)
(** ** Reasoning about slots *)

Section Runs.

Context {A B : Type}.
Variables (m : M A) (k : A -> M B) (s : My_App).

Lemma calls_bind :
  calls (bind m k s) =
  calls (m s) ++ match outcome (m s) with
                 | Ok a => calls (k a (final (m s)))
                 | Raise _ => []
                 end.
Proof.
  unfold bind. destruct (outcome (m s)); simpl; auto using app_nil_r.
Qed.

Lemma printed_bind :
  printed (bind m k s) =
  printed (m s) ++ match outcome (m s) with
                   | Ok a => printed (k a (final (m s)))
                   | Raise _ => []
                   end.
Proof.
  unfold bind. destruct (outcome (m s)); simpl; auto using app_nil_r.
Qed.

Lemma final_bind :
  final (bind m k s) =
  match outcome (m s) with
  | Ok a => final (k a (final (m s)))
  | Raise _ => final (m s)
  end.
Proof. unfold bind. now destruct (outcome (m s)). Qed.

Lemma outcome_bind :
  outcome (bind m k s) =
  match outcome (m s) with
  | Ok a => outcome (k a (final (m s)))
  | Raise e => Raise e
  end.
Proof. unfold bind. now destruct (outcome (m s)). Qed.

End Runs.

Section Frame_rules.

Context {A B X : Type}.
Variables (c : Call) (f : My_App -> X).

Lemma avoids_bind (m : M A) (k : A -> M B) :
  avoids c m -> (forall a, avoids c (k a)) -> avoids c (bind m k).
Proof.
  intros Hm Hk s. rewrite calls_bind. intros [H|H]%in_app_or.
  - exact (Hm s H).
  - destruct (outcome (m s)); [exact (Hk _ _ H) | exact H].
Qed.

Lemma quiet_bind (m : M A) (k : A -> M B) :
  quiet m -> (forall a, quiet (k a)) -> quiet (bind m k).
Proof.
  intros Hm Hk s. rewrite printed_bind, Hm.
  destruct (outcome (m s)); [apply Hk | reflexivity].
Qed.

Lemma keeps_bind (m : M A) (k : A -> M B) :
  keeps f m -> (forall a, keeps f (k a)) -> keeps f (bind m k).
Proof.
  intros Hm Hk s. rewrite final_bind.
  destruct (outcome (m s)); [rewrite Hk|]; apply Hm.
Qed.

Lemma avoids_ret (a : A) : avoids c (ret a).
Proof. intros s H; exact H. Qed.
Lemma avoids_raise e : avoids c (@raise A e).
Proof. intros s H; exact H. Qed.
Lemma avoids_lift (r : result A) : avoids c (lift r).
Proof. destruct r; intros s H; exact H. Qed.
Lemma avoids_self : avoids c self.
Proof. intros s H; exact H. Qed.
Lemma avoids_assign g : avoids c (assign g).
Proof. intros s H; exact H. Qed.
Lemma avoids_print l : avoids c (print l).
Proof. intros s H; exact H. Qed.
Lemma avoids_call c' : c' <> c -> avoids c (call c').
Proof. intros Hc s [H|[]]. now apply Hc. Qed.

Lemma quiet_ret (a : A) : quiet (ret a).
Proof. intro s; reflexivity. Qed.
Lemma quiet_raise e : quiet (@raise A e).
Proof. intro s; reflexivity. Qed.
Lemma quiet_lift (r : result A) : quiet (lift r).
Proof. destruct r; intro s; reflexivity. Qed.
Lemma quiet_self : quiet self.
Proof. intro s; reflexivity. Qed.
Lemma quiet_assign g : quiet (assign g).
Proof. intro s; reflexivity. Qed.
Lemma quiet_call c' : quiet (call c').
Proof. intro s; reflexivity. Qed.

Lemma keeps_ret (a : A) : keeps f (ret a).
Proof. intro s; reflexivity. Qed.
Lemma keeps_raise e : keeps f (@raise A e).
Proof. intro s; reflexivity. Qed.
Lemma keeps_lift (r : result A) : keeps f (lift r).
Proof. destruct r; intro s; reflexivity. Qed.
Lemma keeps_self : keeps f self.
Proof. intro s; reflexivity. Qed.
Lemma keeps_call c' : keeps f (call c').
Proof. intro s; reflexivity. Qed.
Lemma keeps_print l : keeps f (print l).
Proof. intro s; reflexivity. Qed.
Lemma keeps_assign g : (forall s, f (g s) = f s) -> keeps f (assign g).
Proof. intros Hg s. apply Hg. Qed.

End Frame_rules.

Create HintDb slot discriminated.
#[local] Hint Resolve avoids_ret avoids_raise avoids_lift avoids_self
  avoids_assign avoids_print quiet_ret quiet_raise quiet_lift quiet_self
  quiet_assign quiet_call keeps_ret keeps_raise keeps_lift keeps_self
  keeps_call keeps_print : slot.
#[local] Hint Extern 1 (avoids _ (call _)) =>
  apply avoids_call; discriminate : slot.
#[local] Hint Extern 1 (keeps _ (assign _)) =>
  apply keeps_assign; intros []; reflexivity : slot.

(** Walk a slot statement by statement, splitting on every branch. *)
Ltac walk :=
  repeat first
    [ apply avoids_bind | apply quiet_bind | apply keeps_bind
    | progress intros
    | match goal with
      | |- context [match ?x with _ => _ end] => destruct x
      end
    | solve [auto with slot] ].

Section Slot_frames.

Variable cv : Vision.

Lemma get_template_path_keeps {X} (f : My_App -> X) :
  keeps f get_template_path.
Proof. unfold get_template_path. walk. Qed.

Lemma detect_and_filter_keeps {X} (f : My_App -> X) :
  keeps f (detect_and_filter cv).
Proof. unfold detect_and_filter, get_template_path. walk. Qed.

Lemma detect_and_filter_quiet : quiet (detect_and_filter cv).
Proof. unfold detect_and_filter, get_template_path. walk. Qed.

Lemma detect_and_filter_avoids c :
  c = E_findHomography \/ c = E_drawMatches \/
  c = E_setPixmap Live_image_label ->
  avoids c (detect_and_filter cv).
Proof.
  intros [->|[->| ->]]; unfold detect_and_filter, get_template_path; walk.
Qed.

End Slot_frames.

(* ================================================================== *)
(** ** The per-frame tick *)

Section Tick.

Variable cv : Vision.

Lemma points_of_ok kps idx (ms : list DMatch) :
  forallb (fun m => is_ok (index kps (idx m))) ms = true ->
  exists pts, points_of kps idx ms = Ok pts.
Proof.
  unfold points_of. induction ms as [|m ms IH]; simpl; intro H.
  - now exists [].
  - apply andb_prop in H as [Hm Hms]. destruct (IH Hms) as [pts ->].
    destruct (index kps (idx m)); [eauto | discriminate].
Qed.

Lemma indices_in_range_points x :
  indices_in_range x = true ->
  exists q t, points_of (keyp_img_templ x) queryIdx (poi x) = Ok q /\
              points_of (keyp_gframe x) trainIdx (poi x) = Ok t.
Proof.
  unfold indices_in_range. intro H.
  destruct (@points_of_ok (keyp_img_templ x) queryIdx (poi x)) as [q Hq].
  { rewrite forallb_forall in *. intros m Hm.
    now destruct (andb_prop _ _ (H m Hm)). }
  destruct (@points_of_ok (keyp_gframe x) trainIdx (poi x)) as [t Ht].
  { rewrite forallb_forall in *. intros m Hm.
    now destruct (andb_prop _ _ (H m Hm)). }
  eauto.
Qed.

(** A tick whose first half succeeded continues with [render] on the
    unchanged object. *)
Lemma query_camera_continues s x :
  outcome (detect_and_filter cv s) = Ok x ->
  calls (SLOT_query_camera cv s) =
    calls (detect_and_filter cv s) ++ calls (render cv x s) /\
  outcome (SLOT_query_camera cv s) = outcome (render cv x s) /\
  final (SLOT_query_camera cv s) = final (render cv x s).
Proof.
  intro Hx. unfold SLOT_query_camera.
  rewrite calls_bind, outcome_bind, final_bind, Hx.
  now rewrite (detect_and_filter_keeps cv (fun s => s) s).
Qed.

(** A tick whose first half raised ends there. *)
Lemma query_camera_stops s e :
  outcome (detect_and_filter cv s) = Raise e ->
  calls (SLOT_query_camera cv s) = calls (detect_and_filter cv s) /\
  outcome (SLOT_query_camera cv s) = Raise e /\
  final (SLOT_query_camera cv s) = s.
Proof.
  intro He. unfold SLOT_query_camera.
  rewrite calls_bind, outcome_bind, final_bind, He, app_nil_r.
  now rewrite (detect_and_filter_keeps cv (fun s => s) s).
Qed.

Lemma render_few x s :
  List.length (poi x) <= 4 ->
  In E_drawMatches (calls (render cv x s)) /\
  ~ In E_findHomography (calls (render cv x s)).
Proof.
  intro Hn. unfold render.
  replace (4 <? List.length (poi x))%nat with false
    by (symmetry; apply Nat.ltb_ge; exact Hn).
  split.
  - rewrite calls_bind. now left.
  - revert s.
    match goal with |- forall s, ~ In ?c (calls (?m s)) =>
      change (avoids c m) end.
    unfold setPixmap. walk.
Qed.

Lemma render_many x s :
  4 < List.length (poi x) ->
  indices_in_range x = true ->
  In E_findHomography (calls (render cv x s)) /\
  ~ In E_drawMatches (calls (render cv x s)).
Proof.
  intros Hn Hidx. unfold render.
  replace (4 <? List.length (poi x))%nat with true
    by (symmetry; apply Nat.ltb_lt; exact Hn).
  split.
  - destruct (indices_in_range_points _ Hidx) as (q & t & -> & ->).
    rewrite !calls_bind. cbn. now left.
  - revert s.
    match goal with |- forall s, ~ In ?c (calls (?m s)) =>
      change (avoids c m) end.
    unfold setPixmap. walk.
Qed.

Lemma render_degenerate x s :
  4 < List.length (poi x) ->
  indices_in_range x = true ->
  estimator_fails cv ->
  (exists e, outcome (render cv x s) = Raise e) /\
  final (render cv x s) = s /\
  ~ In (E_setPixmap Live_image_label) (calls (render cv x s)).
Proof.
  intros Hn Hidx Hfail. unfold render.
  replace (4 <? List.length (poi x))%nat with true
    by (symmetry; apply Nat.ltb_lt; exact Hn).
  destruct (indices_in_range_points _ Hidx) as (q & t & -> & ->).
  destruct (Hfail q t) as [mask Hmask].
  rewrite !outcome_bind, !final_bind, !calls_bind. cbn.
  rewrite Hmask. cbn.
  destruct mask as [mask|]; cbn.
  - destruct (unpack3 (shape (img_templ x))) as [[[h w] c]|e]; cbn.
    + repeat split; eauto. intuition discriminate.
    + repeat split; eauto. intuition discriminate.
  - repeat split; eauto. intuition discriminate.
Qed.

End Tick.

(** C1.  In a tick that reaches the ratio filter with the list [poi],
    [findHomography] is called if and only if [poi] has more than four
    elements (the matches naming keypoints that exist, as the matcher
    guarantees); with four or fewer the tick calls [drawMatches] and
    never [findHomography]. *)
Theorem homography_iff_more_than_four (cv : Vision) (s : My_App) (x : Matched) :
  outcome (detect_and_filter cv s) = Ok x ->
  (indices_in_range x = true ->
   (In E_findHomography (calls (SLOT_query_camera cv s)) <->
    4 < List.length (poi x))) /\
  (List.length (poi x) <= 4 ->
   In E_drawMatches (calls (SLOT_query_camera cv s)) /\
   ~ In E_findHomography (calls (SLOT_query_camera cv s))).
Proof.
  intro Hx.
  destruct (query_camera_continues cv s Hx) as (Hcalls & _ & _).
  rewrite Hcalls.
  assert (Hd1 : ~ In E_findHomography (calls (detect_and_filter cv s)))
    by (apply detect_and_filter_avoids; auto).
  assert (Hfew : List.length (poi x) <= 4 ->
    In E_drawMatches (calls (detect_and_filter cv s) ++ calls (render cv x s))
    /\ ~ In E_findHomography
           (calls (detect_and_filter cv s) ++ calls (render cv x s))).
  { intro Hn. destruct (render_few cv x s Hn) as [Hin Hout]. split.
    - apply in_or_app. now right.
    - intros [H|H]%in_app_or; tauto. }
  split; [|exact Hfew].
  intro Hidx. split.
  - intro Hin.
    destruct (le_lt_dec (List.length (poi x)) 4) as [Hn|Hn]; [|exact Hn].
    destruct (Hfew Hn) as [_ Hout]. contradiction.
  - intro Hn. apply in_or_app. right.
    now apply render_many.
Qed.

Lemma homography_iff_more_than_four_witness :
  exists x,
    outcome (detect_and_filter Sample.tick_overlay Sample.watching) = Ok x /\
    indices_in_range x = true /\
    List.length (poi x) = 5 /\
    In E_findHomography
       (calls (SLOT_query_camera Sample.tick_overlay Sample.watching)).
Proof.
  eexists. split; [cbv; reflexivity|].
  split; [vm_compute; reflexivity|].
  split; [vm_compute; reflexivity|].
  eapply (@homography_iff_more_than_four
            Sample.tick_overlay Sample.watching).
  - cbv; reflexivity.
  - vm_compute; reflexivity.
  - vm_compute. lia.
Defined.

(** A tick that fails before the filter neither estimates nor draws
    matches. *)
Lemma no_estimation_before_filter (cv : Vision) (s : My_App) (e : exn) :
  outcome (detect_and_filter cv s) = Raise e ->
  ~ In E_findHomography (calls (SLOT_query_camera cv s)) /\
  ~ In E_drawMatches (calls (SLOT_query_camera cv s)).
Proof.
  intro He. destruct (query_camera_stops cv s He) as (-> & _ & _).
  split; apply detect_and_filter_avoids; auto.
Qed.

(** C3, as the code has it.  With more than four matches the estimator
    is called; when it returns no matrix the tick ends in an exception
    that leaves the slot, nothing is rendered and the object (so the
    live picture) is as before the tick. *)
Theorem degenerate_homography_aborts_tick
  (cv : Vision) (s : My_App) (x : Matched) :
  outcome (detect_and_filter cv s) = Ok x ->
  4 < List.length (poi x) ->
  indices_in_range x = true ->
  estimator_fails cv ->
  In E_findHomography (calls (SLOT_query_camera cv s)) /\
  (exists e, outcome (SLOT_query_camera cv s) = Raise e) /\
  ~ In (E_setPixmap Live_image_label) (calls (SLOT_query_camera cv s)) /\
  final (SLOT_query_camera cv s) = s.
Proof.
  intros Hx Hn Hidx Hfail.
  destruct (query_camera_continues cv s Hx) as (-> & -> & ->).
  destruct (render_degenerate x s Hn Hidx Hfail) as (He & Hs & Hpix).
  destruct (render_many cv x s Hn Hidx) as [Hin _].
  repeat split; auto.
  - apply in_or_app. now right.
  - intros [H|H]%in_app_or; [|contradiction].
    revert H. apply detect_and_filter_avoids; auto.
Qed.

Lemma degenerate_homography_aborts_tick_witness :
  exists x,
    outcome (detect_and_filter Sample.tick_degenerate Sample.watching) = Ok x /\
    List.length (poi x) = 5 /\
    final (SLOT_query_camera Sample.tick_degenerate Sample.watching)
    = Sample.watching.
Proof.
  eexists. split; [cbv; reflexivity|].
  split; [vm_compute; reflexivity|].
  eapply (@degenerate_homography_aborts_tick
            Sample.tick_degenerate Sample.watching).
  - cbv; reflexivity.
  - vm_compute. lia.
  - vm_compute; reflexivity.
  - intros src dst. exists None. reflexivity.
Defined.

(** C3 as stated fails: five matches survive, the estimator returns
    [(None, None)], and the tick ends in [AttributeError]. *)
Lemma degenerate_homography_raises :
  (exists x,
     outcome (detect_and_filter Sample.tick_degenerate Sample.watching) = Ok x /\
     List.length (poi x) = 5) /\
  findHomography Sample.tick_degenerate [] [] = Ok (None, None) /\
  outcome (SLOT_query_camera Sample.tick_degenerate Sample.watching)
  = Raise (AttributeError "ravel").
Proof.
  split; [eexists; split; [cbv; reflexivity | vm_compute; reflexivity]|].
  split; vm_compute; reflexivity.
Qed.

(** C4, as the code has it.  When the camera read fails the tick stops
    at the grey-scale conversion with [cv2.error], which leaves the
    slot; nothing after it runs, and the object (so the live picture) is
    unchanged. *)
Theorem failed_read_aborts_tick (cv : Vision) (s : My_App) :
  read cv = (false, None) ->
  outcome (SLOT_query_camera cv s) = Raise (CvError "cvtColor") /\
  calls (SLOT_query_camera cv s) = [E_read; E_cvtColor] /\
  final (SLOT_query_camera cv s) = s.
Proof.
  intro Hread.
  assert (He : outcome (detect_and_filter cv s) = Raise (CvError "cvtColor")).
  { unfold detect_and_filter. rewrite Hread. reflexivity. }
  destruct (query_camera_stops cv s He) as (-> & -> & ->).
  repeat split. unfold detect_and_filter. rewrite Hread. reflexivity.
Qed.

Lemma failed_read_aborts_tick_witness :
  read Sample.tick_no_frame = (false, None) /\
  live_image_label
    (final (SLOT_query_camera Sample.tick_no_frame Sample.watching))
  = live_image_label Sample.watching.
Proof.
  split; [reflexivity|].
  destruct (@failed_read_aborts_tick Sample.tick_no_frame Sample.watching)
    as (_ & _ & ->); reflexivity.
Defined.

(** C4 as stated fails: the read fails and an exception leaves the
    timer's callback. *)
Lemma failed_read_raises :
  read Sample.tick_no_frame = (false, None) /\
  deliverable Sample.watching (Timeout Sample.tick_no_frame) = true /\
  outcome (handle (Timeout Sample.tick_no_frame) Sample.watching)
  = Raise (CvError "cvtColor").
Proof.
  repeat split; vm_compute; reflexivity.
Qed.

(* ================================================================== *)
(** ** The buttons *)

Lemma toggle_camera_final (s : My_App) :
  final (SLOT_toggle_camera s) =
  if _is_cam_enabled s
  then set_toggle_text "&Enable camera"
         (set_is_cam_enabled false (set_timer_active false s))
  else set_toggle_text "&Disable camera"
         (set_is_cam_enabled true (set_timer_active true s)).
Proof.
  destruct s as [id fps enabled loaded path timer text tl ll].
  unfold SLOT_toggle_camera. cbn [_is_cam_enabled].
  destruct enabled; reflexivity.
Qed.

Lemma toggle_camera_quiet : quiet SLOT_toggle_camera.
Proof.
  unfold SLOT_toggle_camera. walk.
Qed.

(** What one run of the browse slot does, by the dialog's answer and
    the path already stored. *)
Lemma browse_button_run (dlg : Desktop) (s : My_App) :
  SLOT_browse_button dlg s =
  let shown p s' :=
    {| final := set_template_label (load_pixmap dlg p) s';
       calls := [E_dialog_exec; E_QPixmap; E_setPixmap Template_label];
       printed := [loaded_line p];
       outcome := Ok tt |} in
  let failed e :=
    {| final := s; calls := [E_dialog_exec]; printed := [];
       outcome := Raise e |} in
  if exec_ dlg
  then match index (selectedFiles dlg) 0 with
       | Ok p => shown p (set_template_path p s)
       | Raise e => failed e
       end
  else match template_path s with
       | Some p => shown p s
       | None => failed (AttributeError "template_path")
       end.
Proof.
  destruct s as [id fps enabled loaded path timer text tl ll].
  unfold SLOT_browse_button. cbn [template_path].
  destruct (exec_ dlg).
  - destruct (index (selectedFiles dlg) 0) as [p|e]; reflexivity.
  - destruct path as [p|]; reflexivity.
Qed.

Lemma browse_button_keeps {X} (f : My_App -> X) (dlg : Desktop) :
  (forall p s, f (set_template_path p s) = f s) ->
  (forall p s, f (set_template_label p s) = f s) ->
  keeps f (SLOT_browse_button dlg).
Proof.
  intros Hpath Hlabel s. rewrite browse_button_run. cbv zeta.
  destruct (exec_ dlg).
  - destruct (index (selectedFiles dlg) 0); cbn [final];
      now rewrite ?Hlabel, ?Hpath.
  - destruct (template_path s); cbn [final]; now rewrite ?Hlabel.
Qed.

Lemma query_camera_keeps_unless_rendered {X} (f : My_App -> X) (cv : Vision) :
  (forall p s, f (set_live_image_label p s) = f s) ->
  keeps f (SLOT_query_camera cv).
Proof.
  intro Hf.
  assert (Hset : forall p, keeps f (assign (set_live_image_label p)))
    by (intros p s; apply Hf).
  unfold SLOT_query_camera. apply keeps_bind.
  - apply detect_and_filter_keeps.
  - intro x. unfold render, setPixmap. walk.
Qed.

Lemma query_camera_quiet (cv : Vision) : quiet (SLOT_query_camera cv).
Proof.
  unfold SLOT_query_camera. apply quiet_bind.
  - apply detect_and_filter_quiet.
  - intro x. unfold render, setPixmap. walk.
Qed.

Lemma Event_is_toggle (ev : Event) :
  ev = Toggle_clicked \/ ev <> Toggle_clicked.
Proof.
  destruct ev; [right | left | right]; congruence.
Qed.

Lemma only_toggle_drives_timer (ev : Event) (c : Call) :
  ev <> Toggle_clicked ->
  c = E_timer_start \/ c = E_timer_stop ->
  avoids c (handle ev).
Proof.
  intros Hev Hc. destruct ev as [dlg| |cv]; [| congruence |]; simpl.
  - destruct Hc as [-> | ->];
      unfold SLOT_browse_button, get_template_path, setPixmap; walk.
  - destruct Hc as [-> | ->];
      unfold SLOT_query_camera, detect_and_filter, render,
             get_template_path, setPixmap; walk.
Qed.

Lemma only_toggle_changes_camera (ev : Event) :
  ev <> Toggle_clicked -> keeps camera_state (handle ev).
Proof.
  intro Hev. destruct ev as [dlg| |cv]; [| congruence |]; simpl.
  - apply browse_button_keeps; reflexivity.
  - apply query_camera_keeps_unless_rendered. reflexivity.
Qed.

(* ================================================================== *)
(** ** Invariants of the event loop *)

Lemma init_fields (ui : Layout) (s0 : My_App) :
  __init__ ui = Ok s0 ->
  _is_cam_enabled s0 = false /\ isActive (_timer s0) = false /\
  _is_template_loaded s0 = false /\ template_path s0 = None /\
  toggle_cam_button s0 = ui_toggle_text ui.
Proof.
  unfold __init__.
  destruct (truediv 100 2) as [q|]; [|discriminate].
  destruct (int_argument ui q) as [ms|]; [|discriminate].
  intros [= <-]. repeat split.
Qed.

Lemma after_app (evs1 evs2 : list Event) : forall s,
  after (evs1 ++ evs2) s = after evs2 (after evs1 s).
Proof.
  induction evs1 as [|ev evs1 IH]; intro s; simpl; [reflexivity|].
  apply IH.
Qed.

Lemma after_reachable (ui : Layout) (evs : list Event) : forall s,
  reachable ui s -> reachable ui (after evs s).
Proof.
  induction evs as [|ev evs IH]; intros s Hs; simpl; [exact Hs|].
  apply IH. destruct (deliverable s ev) eqn:Hd; [|exact Hs].
  now apply reach_step.
Qed.

(** The reachable states are those the constructor's object is in after
    some sequence of events. *)
Lemma reachable_iff_after (ui : Layout) (s : My_App) :
  reachable ui s <->
  exists s0 evs, __init__ ui = Ok s0 /\ s = after evs s0.
Proof.
  split.
  - induction 1 as [s0 H0 | s ev _ (s0 & evs & H0 & ->) Hd].
    + now exists s0, [].
    + exists s0, (evs ++ [ev]). split; [exact H0|].
      rewrite after_app. simpl. now rewrite Hd.
  - intros (s0 & evs & H0 & ->). apply after_reachable.
    now apply reach_init.
Qed.

Lemma camera_state_fields (s s' : My_App) :
  camera_state s' = camera_state s ->
  _is_cam_enabled s' = _is_cam_enabled s /\ _timer s' = _timer s.
Proof.
  unfold camera_state. intros [= -> ->]. now split.
Qed.

Lemma timer_follows_flag (ui : Layout) (s : My_App) :
  reachable ui s -> isActive (_timer s) = _is_cam_enabled s.
Proof.
  induction 1 as [s0 H0 | s ev _ IH Hd].
  - destruct (@init_fields _ _ H0) as (-> & -> & _). reflexivity.
  - destruct (Event_is_toggle ev) as [-> | Hev].
    + cbn [handle]. rewrite toggle_camera_final.
      destruct (_is_cam_enabled s); reflexivity.
    + destruct (camera_state_fields (only_toggle_changes_camera Hev s))
        as [-> ->].
      exact IH.
Qed.

Lemma flag_never_set (ui : Layout) (s : My_App) :
  reachable ui s -> _is_template_loaded s = false.
Proof.
  induction 1 as [s0 H0 | s ev _ IH Hd].
  - now destruct (@init_fields _ _ H0) as (_ & _ & -> & _).
  - rewrite <- IH. destruct ev as [dlg| |cv]; cbn [handle].
    + apply browse_button_keeps; reflexivity.
    + rewrite toggle_camera_final. destruct (_is_cam_enabled s); reflexivity.
    + apply query_camera_keeps_unless_rendered. reflexivity.
Qed.

Lemma toggle_camera_coherent (s : My_App) :
  isActive (_timer s) = _is_cam_enabled s ->
  coherent (final (SLOT_toggle_camera s)).
Proof.
  intros _. rewrite toggle_camera_final. unfold coherent.
  destruct (_is_cam_enabled s); split; reflexivity.
Qed.

(** With the button labelled "&Enable camera" in the layout, every
    reachable state is coherent. *)
Lemma reachable_coherent (ui : Layout) (s : My_App) :
  ui_toggle_text ui = "&Enable camera" ->
  reachable ui s -> coherent s.
Proof.
  intros Hui Hs. split; [now apply (timer_follows_flag Hs)|].
  induction Hs as [s0 H0 | s ev Hs IH Hd].
  - destruct (@init_fields _ _ H0) as (-> & _ & _ & _ & ->). exact Hui.
  - destruct (Event_is_toggle ev) as [-> | Hev].
    + apply toggle_camera_coherent. now apply (timer_follows_flag Hs).
    + destruct (camera_state_fields (only_toggle_changes_camera Hev s))
        as [-> _].
      rewrite <- IH. destruct ev as [dlg| |cv]; [| congruence |]; cbn [handle].
      * apply browse_button_keeps; reflexivity.
      * apply query_camera_keeps_unless_rendered. reflexivity.
Qed.

(** C6, as the code has it.  In a state where the timer, the flag and
    the button text agree (every state once the button has been used,
    and the initial one when the layout labels the button
    "&Enable camera"), toggling the camera twice restores the flag, the
    timer's running state and the button text. *)
Theorem toggle_twice_restores (s : My_App) :
  coherent s ->
  camera_view (final (SLOT_toggle_camera (final (SLOT_toggle_camera s))))
  = camera_view s.
Proof.
  intros [Htimer Htext]. rewrite !toggle_camera_final.
  unfold camera_view.
  destruct (_is_cam_enabled s) eqn:He; cbn;
    rewrite Htimer, Htext; reflexivity.
Qed.

Lemma toggle_twice_restores_witness :
  coherent Sample.fresh /\
  camera_view
    (final (SLOT_toggle_camera (final (SLOT_toggle_camera Sample.fresh))))
  = (false, false, "&Enable camera").
Proof.
  assert (H : coherent Sample.fresh) by (split; reflexivity).
  split; [exact H|].
  exact (toggle_twice_restores H).
Defined.

(** C6 as stated fails: from the constructor's state under a layout
    that labels the button "Toggle camera", two toggles leave the button
    reading "&Enable camera". *)
Lemma toggle_twice_loses_layout_text :
  exists s0,
    __init__ Sample.plain_layout = Ok s0 /\
    toggle_cam_button s0 = "Toggle camera" /\
    _is_cam_enabled
      (final (SLOT_toggle_camera (final (SLOT_toggle_camera s0))))
    = _is_cam_enabled s0 /\
    toggle_cam_button
      (final (SLOT_toggle_camera (final (SLOT_toggle_camera s0))))
    = "&Enable camera".
Proof.
  eexists. split; [vm_compute; reflexivity|].
  repeat split; vm_compute; reflexivity.
Qed.

(** C10.  In every reachable state the flag [_is_cam_enabled] equals
    the timer's running state; after a toggle the button reads
    "&Disable camera" exactly when the flag is true and "&Enable camera"
    exactly when it is false; and an event other than the toggle leaves
    the flag and the timer alone and neither starts nor stops the
    timer. *)
Theorem camera_flag_tracks_timer (ui : Layout) (s : My_App) :
  reachable ui s ->
  isActive (_timer s) = _is_cam_enabled s /\
  (toggle_cam_button (final (SLOT_toggle_camera s)) = "&Disable camera" <->
   _is_cam_enabled (final (SLOT_toggle_camera s)) = true) /\
  (toggle_cam_button (final (SLOT_toggle_camera s)) = "&Enable camera" <->
   _is_cam_enabled (final (SLOT_toggle_camera s)) = false) /\
  (forall ev, ev <> Toggle_clicked ->
     camera_state (final (handle ev s)) = camera_state s /\
     ~ In E_timer_start (calls (handle ev s)) /\
     ~ In E_timer_stop (calls (handle ev s))).
Proof.
  intro Hs. split; [now apply (timer_follows_flag Hs)|].
  rewrite toggle_camera_final.
  split; [|split].
  - destruct (_is_cam_enabled s); cbn; split; congruence.
  - destruct (_is_cam_enabled s); cbn; split; congruence.
  - intros ev Hev. split; [now apply only_toggle_changes_camera|].
    split; apply only_toggle_drives_timer; auto.
Qed.

Lemma camera_flag_tracks_timer_witness :
  reachable Sample.layout Sample.watching /\
  isActive (_timer Sample.watching) = _is_cam_enabled Sample.watching.
Proof.
  assert (H : reachable Sample.layout Sample.watching).
  { apply after_reachable. apply reach_init. vm_compute. reflexivity. }
  split; [exact H|].
  exact (proj1 (camera_flag_tracks_timer H)).
Defined.

(* ================================================================== *)
(** ** The template *)

(** Without a stored path the tick stops before any feature matching. *)
Lemma tick_without_path (cv : Vision) (s : My_App) (c : Call) :
  template_path s = None ->
  In c (calls (SLOT_query_camera cv s)) -> feature_matching c = false.
Proof.
  intros Hnone.
  assert (Hstop : exists e, outcome (detect_and_filter cv s) = Raise e /\
            incl (calls (detect_and_filter cv s)) [E_read; E_cvtColor]).
  { destruct s as [id fps enabled loaded path timer text tl ll].
    cbn [template_path] in Hnone. subst path.
    unfold detect_and_filter, get_template_path.
    destruct (read cv) as [ok fr].
    rewrite !outcome_bind, !calls_bind. cbn.
    destruct (cvtColor_BGR2GRAY cv fr) as [g|e]; cbn.
    - eexists. split; [reflexivity|]. intros c' Hc'. exact Hc'.
    - eexists. split; [reflexivity|]. intros c' Hc'. exact Hc'. }
  destruct Hstop as (e & He & Hincl).
  destruct (query_camera_stops cv s He) as (-> & _ & _).
  intros Hc. apply Hincl in Hc.
  destruct Hc as [<-|[<-|[]]]; reflexivity.
Qed.

(** A stored path was selected in a confirmed dialog. *)
Lemma stored_path_origin (p : string) (evs : list Event) : forall s,
  template_path (after evs s) = Some p ->
  template_path s = Some p \/
  exists dlg, In (Browse_clicked dlg) evs /\ exec_ dlg = true /\
              index (selectedFiles dlg) 0 = Ok p.
Proof.
  induction evs as [|ev evs IH]; intros s Hp; simpl in Hp; [now left|].
  destruct (IH _ Hp) as [Hnow | (dlg & Hin & Hdlg)].
  - destruct (deliverable s ev); [|now left].
    destruct ev as [dlg| |cv]; cbn [handle] in Hnow.
    + rewrite browse_button_run in Hnow. cbv zeta in Hnow.
      destruct (exec_ dlg) eqn:Hexec.
      * destruct (index (selectedFiles dlg) 0) as [q|e] eqn:Hq;
          cbn in Hnow; [|now left].
        injection Hnow as ->. right. exists dlg. simpl. auto.
      * destruct (template_path s) eqn:Hs; cbn in Hnow; left; congruence.
    + rewrite toggle_camera_final in Hnow.
      destruct (_is_cam_enabled s); now left.
    + left.
      now rewrite <- (@query_camera_keeps_unless_rendered _ template_path cv).
  - right. exists dlg. simpl. auto.
Qed.

(** C5, as the code has it.  No event sets [_is_template_loaded] and no
    tick reads it; a tick performs feature matching only when a
    template path is stored, and a path is stored only by a browse
    dialog that was confirmed. *)
Theorem matching_needs_confirmed_browse
  (ui : Layout) (s0 : My_App) (evs : list Event) :
  __init__ ui = Ok s0 ->
  _is_template_loaded (after evs s0) = false /\
  (forall cv c,
     In c (calls (SLOT_query_camera cv (after evs s0))) ->
     feature_matching c = true ->
     exists dlg p,
       In (Browse_clicked dlg) evs /\ exec_ dlg = true /\
       index (selectedFiles dlg) 0 = Ok p /\
       template_path (after evs s0) = Some p).
Proof.
  intros H0. split.
  - apply (@flag_never_set ui). apply after_reachable. now apply reach_init.
  - intros cv c Hc Hfm.
    destruct (template_path (after evs s0)) as [p|] eqn:Hp.
    + destruct (@stored_path_origin p evs s0 Hp)
        as [Hinit | (dlg & Hin & He & Hi)].
      * destruct (@init_fields _ _ H0) as (_ & _ & _ & Hnone & _). congruence.
      * now exists dlg, p.
    + rewrite (@tick_without_path cv _ c Hp Hc) in Hfm. discriminate.
Qed.

Lemma matching_needs_confirmed_browse_witness :
  __init__ Sample.layout = Ok Sample.fresh /\
  _is_template_loaded Sample.watching = false /\
  template_path Sample.watching = Some "box.png".
Proof.
  assert (H0 : __init__ Sample.layout = Ok Sample.fresh)
    by (vm_compute; reflexivity).
  split; [exact H0|].
  split; [|vm_compute; reflexivity].
  exact (proj1 (@matching_needs_confirmed_browse Sample.layout Sample.fresh
    [Browse_clicked (Sample.confirm "box.png"); Toggle_clicked] H0)).
Defined.

(** C5 as stated fails: after a confirmed browse and a toggle, a tick
    the timer delivers detects on the template and runs the matcher
    while [_is_template_loaded] is still false. *)
Lemma matching_runs_with_flag_unset :
  reachable Sample.layout Sample.watching /\
  _is_template_loaded Sample.watching = false /\
  deliverable Sample.watching (Timeout Sample.tick_few) = true /\
  In (E_detectAndCompute Template)
     (calls (handle (Timeout Sample.tick_few) Sample.watching)) /\
  In E_knnMatch (calls (handle (Timeout Sample.tick_few) Sample.watching)).
Proof.
  split.
  { apply after_reachable. apply reach_init. vm_compute. reflexivity. }
  repeat split; vm_compute; tauto.
Qed.

(* ================================================================== *)
(** ** Standard output *)

(** C8, as the code has it.  The browse slot prints the line once
    whenever it runs to its end: for the selected file when the dialog
    is confirmed, for the path stored earlier when the dialog is
    cancelled, and nothing when there is no path to show.  The other
    slots print nothing. *)
Theorem browse_prints_stored_path
  (dlg : Desktop) (cv : Vision) (s : My_App) :
  printed (SLOT_browse_button dlg s) =
    (if exec_ dlg
     then match index (selectedFiles dlg) 0 with
          | Ok p => [loaded_line p]
          | Raise _ => []
          end
     else match template_path s with
          | Some p => [loaded_line p]
          | None => []
          end) /\
  printed (SLOT_toggle_camera s) = [] /\
  printed (SLOT_query_camera cv s) = [].
Proof.
  split; [|split].
  - rewrite browse_button_run. cbv zeta.
    destruct (exec_ dlg).
    + destruct (index (selectedFiles dlg) 0); reflexivity.
    + destruct (template_path s); reflexivity.
  - apply toggle_camera_quiet.
  - apply query_camera_quiet.
Qed.

(** C8 as stated fails: with "box.png" chosen earlier, a cancelled
    dialog prints the line again. *)
Lemma cancelled_browse_prints :
  reachable Sample.layout Sample.watching /\
  exec_ Sample.cancel = false /\
  printed (handle (Browse_clicked Sample.cancel) Sample.watching)
  = ["Loaded template image file: box.png"].
Proof.
  split.
  { apply after_reachable. apply reach_init. vm_compute. reflexivity. }
  split; vm_compute; reflexivity.
Qed.

(* ================================================================== *)
(** ** More on the ratio filter *)

Lemma unpack2_ok_iff {A} (e : list A) :
  (exists mn, unpack2 e = Ok mn) <-> List.length e = 2.
Proof.
  destruct e as [|a [|b [|c e]]]; simpl; split;
    try discriminate; try reflexivity; eauto;
    intros [mn H]; discriminate.
Qed.

Lemma ratio_loop_total (ms : list (list DMatch)) : forall acc,
  (Forall (fun e => List.length e = 2) ms ->
   exists poi, ratio_loop ms acc = Ok poi) /\
  (forall poi, ratio_loop ms acc = Ok poi ->
   Forall (fun e => List.length e = 2) ms) /\
  (forall e, ratio_loop ms acc = Raise e -> e = ValueError).
Proof.
  induction ms as [|mn ms IH]; intro acc; simpl.
  - repeat split; eauto; discriminate.
  - destruct mn as [|m [|n [|o mn]]]; simpl;
      try (repeat split; [inversion 1; discriminate | discriminate
                         | congruence]).
    destruct (distance m <? 0.65 * distance n)%float.
    + destruct (IH (acc ++ [m])) as (H1 & H2 & H3).
      repeat split; eauto. inversion 1; auto.
    + destruct (IH acc) as (H1 & H2 & H3).
      repeat split; eauto. inversion 1; auto.
Qed.

(** X1.  The filter returns a list exactly when every entry of
    [matches] has two elements; an entry of any other length makes it
    raise [ValueError], and it raises nothing else. *)
Theorem ratio_loop_needs_pairs (ms : list (list DMatch)) :
  (Forall (fun e => List.length e = 2) ms <->
   exists poi, ratio_loop ms [] = Ok poi) /\
  (forall e, ratio_loop ms [] = Raise e -> e = ValueError).
Proof.
  destruct (ratio_loop_total ms []) as (H1 & H2 & H3).
  split; [split|]; auto.
  intros [poi Hpoi]. eauto.
Qed.

Lemma ratio_loop_kept (ms : list (list DMatch)) : forall acc poi,
  ratio_loop ms acc = Ok poi ->
  exists kept,
    poi = acc ++ kept /\
    List.length kept <= List.length ms /\
    forall m, In m kept ->
      exists n, In [m; n] ms /\ passes_ratio_test (m, n) = true.
Proof.
  induction ms as [|mn ms IH]; intros acc poi H; simpl in H.
  - injection H as <-. exists []. rewrite app_nil_r.
    repeat split; auto. intros m [].
  - destruct mn as [|m [|n [|o mn]]]; simpl in H; try discriminate.
    destruct (distance m <? 0.65 * distance n)%float eqn:Hlt.
    + destruct (IH _ _ H) as (kept & -> & Hlen & Hin).
      exists (m :: kept). rewrite <- app_assoc. simpl.
      repeat split; [lia|].
      intros m' [<- | Hm'].
      * exists n. split; [now left | exact Hlt].
      * destruct (Hin _ Hm') as (n' & Hn' & Hp). exists n'. auto.
    + destruct (IH _ _ H) as (kept & -> & Hlen & Hin).
      exists kept. repeat split; [simpl; lia|].
      intros m' Hm'. destruct (Hin _ Hm') as (n' & Hn' & Hp).
      exists n'. simpl. auto.
Qed.

(** X2.  The list the filter returns is no longer than [matches], and
    each of its elements is the first element of an entry whose two
    distances pass the ratio test. *)
Theorem ratio_loop_selects_best (ms : list (list DMatch)) (poi : list DMatch) :
  ratio_loop ms [] = Ok poi ->
  List.length poi <= List.length ms /\
  forall m, In m poi ->
    exists n, In [m; n] ms /\ passes_ratio_test (m, n) = true.
Proof.
  intro H. destruct (ratio_loop_kept _ _ H) as (kept & -> & Hlen & Hin).
  simpl. auto.
Qed.

Lemma ratio_loop_selects_best_witness :
  ratio_loop Sample.three_good [] =
    Ok [Sample.dm 0 0 1; Sample.dm 1 1 1; Sample.dm 2 2 1] /\
  3 <= List.length Sample.three_good.
Proof.
  assert (H : ratio_loop Sample.three_good [] =
              Ok [Sample.dm 0 0 1; Sample.dm 1 1 1; Sample.dm 2 2 1])
    by (vm_compute; reflexivity).
  split; [exact H|].
  exact (proj1 (@ratio_loop_selects_best _ _ H)).
Defined.

(* ================================================================== *)
(** ** More on the display conversion *)

Lemma bgra2rgb_length (k : nat) : forall d,
  List.length d = k * 4 -> List.length (Cv.bgra2rgb d) = k * 3.
Proof.
  induction k as [|k IH]; intros d Hd.
  - destruct d; [reflexivity | discriminate].
  - destruct d as [|b [|g [|r [|a rest]]]]; simpl in Hd; try discriminate.
    simpl. rewrite (IH rest); lia.
Qed.

Lemma bgra2rgb_pixel (i : nat) : forall d z,
  4 * i + 3 < List.length d ->
  nth (3 * i) (Cv.bgra2rgb d) z = nth (4 * i + 2) d z /\
  nth (3 * i + 1) (Cv.bgra2rgb d) z = nth (4 * i + 1) d z /\
  nth (3 * i + 2) (Cv.bgra2rgb d) z = nth (4 * i) d z.
Proof.
  induction i as [|i IH]; intros d z Hd.
  - destruct d as [|b [|g [|r [|a rest]]]]; simpl in Hd; try lia.
    repeat split.
  - destruct d as [|b [|g [|r [|a rest]]]]; simpl in Hd; try lia.
    replace (3 * S i) with (S (S (S (3 * i)))) by lia.
    replace (4 * S i) with (S (S (S (S (4 * i))))) by lia.
    specialize (IH rest z ltac:(lia)).
    cbn [Cv.bgra2rgb nth Nat.add]. exact IH.
Qed.

(** X3.  A four-channel image is shown without its alpha bytes: the
    pixmap has the image's width and height and three bytes per pixel,
    the red, green and blue of the same pixel.  The stride comes from
    the converted image, so rows stay aligned. *)
Theorem convert_cv_to_pixmap_drops_alpha (img : ndarray) (h w : nat) :
  bgra_image img h w ->
  exists pm,
    convert_cv_to_pixmap (Some img) = Ok pm /\
    pm_width pm = w /\ pm_height pm = h /\
    List.length (pm_rgb pm) = h * w * 3 /\
    (forall i z, i < h * w ->
       nth (3 * i) (pm_rgb pm) z = nth (4 * i + 2) (data img) z /\
       nth (3 * i + 1) (pm_rgb pm) z = nth (4 * i + 1) (data img) z /\
       nth (3 * i + 2) (pm_rgb pm) z = nth (4 * i) (data img) z).
Proof.
  intros (Hshape & Hh & Hw & Hlen).
  assert (Hlen' : List.length (Cv.bgra2rgb (data img)) = h * (3 * w)).
  { rewrite (@bgra2rgb_length (h * w)); lia. }
  assert (Hnz : (h * w =? 0)%nat = false) by (apply Nat.eqb_neq; nia).
  assert (Hrows :
    flat_map (scanLine {| bits := Cv.bgra2rgb (data img); width := w;
                          height := h; bytesPerLine := 3 * w;
                          format := Format_RGB888 |}) (seq 0 h)
    = Cv.bgra2rgb (data img)).
  { unfold scanLine. cbn [bits width bytesPerLine].
    now apply rows_cover. }
  exists {| pm_width := w; pm_height := h;
            pm_rgb := Cv.bgra2rgb (data img) |}.
  split.
  { unfold convert_cv_to_pixmap, Cv.cvtColor_BGR2RGB.
    rewrite Hshape, Hnz. cbn -[Nat.mul flat_map seq].
    unfold fromImage. cbn [width height]. now rewrite Hrows. }
  cbn [pm_width pm_height pm_rgb].
  repeat split; try lia; apply bgra2rgb_pixel; lia.
Qed.

Lemma convert_cv_to_pixmap_drops_alpha_witness :
  bgra_image Sample.bgra_frame 1 2 /\
  exists pm, convert_cv_to_pixmap (Some Sample.bgra_frame) = Ok pm /\
             pm_width pm = 2 /\ pm_height pm = 1.
Proof.
  assert (H : bgra_image Sample.bgra_frame 1 2).
  { unfold bgra_image. simpl. repeat split; lia. }
  split; [exact H|].
  destruct (convert_cv_to_pixmap_drops_alpha H) as (pm & Hpm & Hw & Hh & _).
  exists pm. auto.
Defined.

Lemma convert_colour (img : ndarray) (h w : nat) :
  colour_image img h w ->
  convert_cv_to_pixmap (Some img) =
  Ok {| pm_width := w; pm_height := h; pm_rgb := Cv.bgr2rgb (data img) |}.
Proof.
  intros (Hshape & Hh & Hw & Hlen).
  assert (Hlen' : List.length (Cv.bgr2rgb (data img)) = h * (3 * w)).
  { rewrite (@bgr2rgb_length (h * w)); lia. }
  assert (Hnz : (h * w =? 0)%nat = false) by (apply Nat.eqb_neq; nia).
  unfold convert_cv_to_pixmap, Cv.cvtColor_BGR2RGB.
  rewrite Hshape, Hnz. cbn -[Nat.mul flat_map seq].
  unfold fromImage, scanLine. cbn [width height bits bytesPerLine].
  now rewrite rows_cover.
Qed.

(* ================================================================== *)
(** ** Stepping through a slot *)

Section Steps.

Context {A B : Type}.
Variables (k : A -> M B) (ku : unit -> M B) (s : My_App).

Lemma outcome_lift_ok a : outcome (bind (lift (Ok a)) k s) = outcome (k a s).
Proof. reflexivity. Qed.
Lemma final_lift_ok a : final (bind (lift (Ok a)) k s) = final (k a s).
Proof. reflexivity. Qed.
Lemma calls_lift_ok a : calls (bind (lift (Ok a)) k s) = calls (k a s).
Proof. reflexivity. Qed.

Lemma outcome_lift_raise e : outcome (bind (lift (Raise e)) k s) = Raise e.
Proof. reflexivity. Qed.
Lemma final_lift_raise e : final (bind (lift (Raise e)) k s) = s.
Proof. reflexivity. Qed.
Lemma calls_lift_raise e : calls (bind (lift (Raise e)) k s) = [].
Proof. reflexivity. Qed.

Lemma outcome_call c : outcome (bind (call c) ku s) = outcome (ku tt s).
Proof. reflexivity. Qed.
Lemma final_call c : final (bind (call c) ku s) = final (ku tt s).
Proof. reflexivity. Qed.
Lemma calls_call c : calls (bind (call c) ku s) = c :: calls (ku tt s).
Proof. reflexivity. Qed.

End Steps.

Ltac step :=
  repeat (rewrite ?outcome_lift_ok, ?final_lift_ok, ?calls_lift_ok,
            ?outcome_lift_raise, ?final_lift_raise, ?calls_lift_raise,
            ?outcome_call, ?final_call, ?calls_call;
          cbv beta iota zeta).

Lemma setPixmap_live (p : QPixmap) (s : My_App) :
  outcome (setPixmap Live_image_label p s) = Ok tt /\
  final (setPixmap Live_image_label p s) = set_live_image_label p s /\
  calls (setPixmap Live_image_label p s) = [E_setPixmap Live_image_label].
Proof.
  repeat split.
Qed.

Section Renders.

Context {A B : Type}.

Lemma renders_bind (m : M A) (k : A -> M B) :
  keeps (fun s => s) m -> (forall a, renders (k a)) -> renders (bind m k).
Proof.
  intros Hm Hk s. rewrite outcome_bind, final_bind.
  destruct (outcome (m s)) as [a|e]; rewrite (Hm s); [apply Hk | reflexivity].
Qed.

Lemma renders_setPixmap (p : QPixmap) : renders (setPixmap Live_image_label p).
Proof.
  intro s. simpl. now exists p.
Qed.

End Renders.

Lemma render_renders (cv : Vision) (x : Matched) : renders (render cv x).
Proof.
  unfold render.
  repeat first
    [ apply renders_setPixmap
    | apply renders_bind; [solve [auto with slot] | intros]
    | match goal with
      | |- context [match ?y with _ => _ end] => destruct y
      end ].
Qed.

(** X4.  A tick is all or nothing: if it raises, the object is exactly
    as before the tick; if it returns, the only change is the pixmap of
    the live-image label. *)
Theorem tick_all_or_nothing (cv : Vision) (s : My_App) :
  match outcome (SLOT_query_camera cv s) with
  | Raise _ => final (SLOT_query_camera cv s) = s
  | Ok _ =>
      exists p, final (SLOT_query_camera cv s) = set_live_image_label p s
  end.
Proof.
  revert s. change (renders (SLOT_query_camera cv)).
  unfold SLOT_query_camera. apply renders_bind.
  - apply detect_and_filter_keeps.
  - intro x. apply render_renders.
Qed.

(* ================================================================== *)
(** ** Branches of the tick *)

Lemma index_raises {A} (xs : list A) (i : Z) (e : exn) :
  index xs i = Raise e -> e = IndexError.
Proof.
  unfold index. destruct (_ && _)%bool; [destruct (nth_error _ _)|];
    congruence.
Qed.

Lemma points_of_result kps idx (ms : list DMatch) :
  if forallb (fun m => is_ok (index kps (idx m))) ms
  then exists pts, points_of kps idx ms = Ok pts
  else points_of kps idx ms = Raise IndexError.
Proof.
  unfold points_of. induction ms as [|m ms IH]; simpl.
  - now exists [].
  - destruct (index kps (idx m)) as [kp|e] eqn:Hi; simpl.
    + destruct (forallb _ ms).
      * destruct IH as [pts ->]. eauto.
      * now rewrite IH.
    + now rewrite (index_raises _ _ Hi).
Qed.

(** X5.  With more than four matches, a match that names a keypoint
    outside either keypoint list makes the tick raise [IndexError] at
    lines 109-110: the estimator is not called, nothing is rendered and
    the object is unchanged. *)
Theorem stray_index_aborts_tick (cv : Vision) (s : My_App) (x : Matched) :
  outcome (detect_and_filter cv s) = Ok x ->
  4 < List.length (poi x) ->
  indices_in_range x = false ->
  outcome (SLOT_query_camera cv s) = Raise IndexError /\
  ~ In E_findHomography (calls (SLOT_query_camera cv s)) /\
  ~ In (E_setPixmap Live_image_label) (calls (SLOT_query_camera cv s)) /\
  final (SLOT_query_camera cv s) = s.
Proof.
  intros Hx Hn Hidx.
  destruct (query_camera_continues cv s Hx) as (-> & -> & ->).
  assert (Hd : forall c, c = E_findHomography \/ c = E_drawMatches \/
                         c = E_setPixmap Live_image_label ->
                         ~ In c (calls (detect_and_filter cv s)))
    by (intros c Hc; now apply detect_and_filter_avoids).
  assert (Hr : outcome (render cv x s) = Raise IndexError /\
               calls (render cv x s) = [] /\ final (render cv x s) = s).
  { unfold render.
    replace (4 <? List.length (poi x))%nat with true
      by (symmetry; apply Nat.ltb_lt; exact Hn).
    pose proof (points_of_result (keyp_img_templ x) queryIdx (poi x)) as Hq.
    pose proof (points_of_result (keyp_gframe x) trainIdx (poi x)) as Ht.
    destruct (forallb _ (poi x)) eqn:Eq in Hq.
    - destruct (forallb _ (poi x)) eqn:Et in Ht.
      + exfalso. unfold indices_in_range in Hidx.
        rewrite forallb_forall in Eq, Et.
        assert (forallb (fun m =>
                  is_ok (index (keyp_img_templ x) (queryIdx m)) &&
                  is_ok (index (keyp_gframe x) (trainIdx m))) (poi x) = true).
        { apply forallb_forall. intros m Hm.
          now rewrite (Eq m Hm), (Et m Hm). }
        congruence.
      + destruct Hq as [q ->]. rewrite Ht. step. auto.
    - rewrite Hq. step. auto. }
  destruct Hr as (-> & -> & ->). rewrite app_nil_r.
  repeat split; auto.
Qed.

Lemma stray_index_aborts_tick_witness :
  exists x,
    outcome (detect_and_filter Sample.tick_stray Sample.watching) = Ok x /\
    List.length (poi x) = 5 /\
    indices_in_range x = false /\
    outcome (SLOT_query_camera Sample.tick_stray Sample.watching)
    = Raise IndexError.
Proof.
  eexists. split; [cbv; reflexivity|].
  split; [vm_compute; reflexivity|].
  split; [vm_compute; reflexivity|].
  eapply (@stray_index_aborts_tick Sample.tick_stray Sample.watching).
  - cbv; reflexivity.
  - vm_compute. lia.
  - vm_compute; reflexivity.
Defined.

(** X6.  With four matches or fewer, when [drawMatches] returns a
    colour image the tick returns and the live-image label shows that
    image, pixel for pixel, as an RGB pixmap of the same size. *)
Theorem few_matches_show_match_picture
  (cv : Vision) (s : My_App) (x : Matched) (img : ndarray) (h w : nat) :
  outcome (detect_and_filter cv s) = Ok x ->
  List.length (poi x) <= 4 ->
  drawMatches cv (img_templ x) (keyp_img_templ x) (grayframe x)
    (keyp_gframe x) (poi x) = Ok img ->
  colour_image img h w ->
  outcome (SLOT_query_camera cv s) = Ok tt /\
  final (SLOT_query_camera cv s) =
    set_live_image_label
      {| pm_width := w; pm_height := h; pm_rgb := Cv.bgr2rgb (data img) |} s.
Proof.
  intros Hx Hn Hdraw Himg.
  destruct (query_camera_continues cv s Hx) as (_ & -> & ->).
  unfold render.
  replace (4 <? List.length (poi x))%nat with false
    by (symmetry; apply Nat.ltb_ge; exact Hn).
  rewrite Hdraw. step. rewrite (convert_colour Himg). step.
  split; reflexivity.
Qed.

Lemma few_matches_show_match_picture_witness :
  exists x,
    outcome (detect_and_filter Sample.tick_few Sample.watching) = Ok x /\
    List.length (poi x) = 3 /\
    outcome (SLOT_query_camera Sample.tick_few Sample.watching) = Ok tt.
Proof.
  eexists. split; [cbv; reflexivity|].
  split; [vm_compute; reflexivity|].
  eapply (@few_matches_show_match_picture
            Sample.tick_few Sample.watching _ Sample.bgr_frame 1 2).
  - cbv; reflexivity.
  - vm_compute. lia.
  - reflexivity.
  - unfold colour_image. simpl. repeat split; lia.
Defined.

(** X7.  With more than four matches, when the estimator returns a
    matrix and a mask, the template image has three dimensions and the
    transform and the drawing succeed, the tick returns and the
    live-image label shows the frame with the outline drawn on it, as
    an RGB pixmap of the same size. *)
Theorem many_matches_show_overlay
  (cv : Vision) (s : My_App) (x : Matched)
  (q t dst : list Point) (mx : Matrix) (mask img : ndarray)
  (th tw tc h w : nat) :
  outcome (detect_and_filter cv s) = Ok x ->
  4 < List.length (poi x) ->
  points_of (keyp_img_templ x) queryIdx (poi x) = Ok q ->
  points_of (keyp_gframe x) trainIdx (poi x) = Ok t ->
  findHomography cv q t = Ok (Some mx, Some mask) ->
  shape (img_templ x) = [th; tw; tc] ->
  perspectiveTransform cv (template_corners th tw) mx = Ok dst ->
  polylines cv (frame x) dst = Ok img ->
  colour_image img h w ->
  outcome (SLOT_query_camera cv s) = Ok tt /\
  final (SLOT_query_camera cv s) =
    set_live_image_label
      {| pm_width := w; pm_height := h; pm_rgb := Cv.bgr2rgb (data img) |} s /\
  ~ In E_drawMatches (calls (SLOT_query_camera cv s)).
Proof.
  intros Hx Hn Hq Ht Hhom Hshape Hpt Hpoly Himg.
  destruct (query_camera_continues cv s Hx) as (-> & -> & ->).
  unfold template_corners in Hpt.
  assert (Hr : outcome (render cv x s) = Ok tt /\
    final (render cv x s) =
      set_live_image_label
        {| pm_width := w; pm_height := h;
           pm_rgb := Cv.bgr2rgb (data img) |} s /\
    calls (render cv x s) =
      [E_findHomography; E_perspectiveTransform; E_polylines;
       E_setPixmap Live_image_label]).
  { unfold render.
    replace (4 <? List.length (poi x))%nat with true
      by (symmetry; apply Nat.ltb_lt; exact Hn).
    rewrite Hq. step. rewrite Ht. step. rewrite Hhom. step.
    unfold ravel_tolist. step. rewrite Hshape. unfold unpack3. step.
    rewrite Hpt. step. rewrite Hpoly. step.
    rewrite (convert_colour Himg). step.
    repeat split. }
  destruct Hr as (-> & -> & ->).
  repeat split.
  intros [H|H]%in_app_or.
  - revert H. apply detect_and_filter_avoids; auto.
  - simpl in H. intuition discriminate.
Qed.

Lemma many_matches_show_overlay_witness :
  exists x,
    outcome (detect_and_filter Sample.tick_overlay Sample.watching) = Ok x /\
    List.length (poi x) = 5 /\
    outcome (SLOT_query_camera Sample.tick_overlay Sample.watching) = Ok tt.
Proof.
  eexists. split; [cbv; reflexivity|].
  split; [vm_compute; reflexivity|].
  eapply (@many_matches_show_overlay
            Sample.tick_overlay Sample.watching _ _ _ _
            Sample.identity3 Sample.inliers Sample.bgr_frame 1 2 3 1 2).
  - cbv; reflexivity.
  - vm_compute. lia.
  - cbv; reflexivity.
  - cbv; reflexivity.
  - reflexivity.
  - reflexivity.
  - reflexivity.
  - reflexivity.
  - unfold colour_image. simpl. repeat split; lia.
Defined.

(* ================================================================== *)
(** ** More on the buttons and the event loop *)

(** X8.  When the browse slot returns, a template path is stored (the
    first selected file if the dialog was confirmed, the path stored
    before if it was cancelled) and the template label shows the pixmap
    loaded from that path.  Whether it returns or raises, the camera
    flag, the timer, the toggle text and the unused flag are
    unchanged. *)
Theorem browse_shows_stored_template (dlg : Desktop) (s : My_App) :
  match outcome (SLOT_browse_button dlg s) with
  | Ok _ =>
      exists p,
        (if exec_ dlg then index (selectedFiles dlg) 0 = Ok p
         else template_path s = Some p) /\
        template_path (final (SLOT_browse_button dlg s)) = Some p /\
        template_label (final (SLOT_browse_button dlg s))
        = Some (load_pixmap dlg p)
  | Raise _ => True
  end /\
  camera_view (final (SLOT_browse_button dlg s)) = camera_view s /\
  _is_template_loaded (final (SLOT_browse_button dlg s))
  = _is_template_loaded s.
Proof.
  split.
  - rewrite browse_button_run. cbv zeta.
    destruct (exec_ dlg).
    + destruct (index (selectedFiles dlg) 0) as [p|e]; cbn; eauto.
    + destruct (template_path s) as [p|] eqn:Hp; cbn; eauto.
  - split; apply browse_button_keeps; reflexivity.
Qed.

(** X9.  Before a template path is stored, a tick reads the camera,
    converts the frame and stops: it raises (the missing attribute, or
    the conversion error on a bad frame) without reading any file or
    detecting anything, and leaves the object unchanged. *)
Theorem tick_before_template_stops (cv : Vision) (s : My_App) :
  template_path s = None ->
  (outcome (SLOT_query_camera cv s) = Raise (AttributeError "template_path") \/
   outcome (SLOT_query_camera cv s) = Raise (CvError "cvtColor")) /\
  calls (SLOT_query_camera cv s) = [E_read; E_cvtColor] /\
  final (SLOT_query_camera cv s) = s.
Proof.
  intro Hnone.
  assert (Hd : exists e,
    outcome (detect_and_filter cv s) = Raise e /\
    (e = AttributeError "template_path" \/ e = CvError "cvtColor") /\
    calls (detect_and_filter cv s) = [E_read; E_cvtColor]).
  { destruct s as [id fps enabled loaded path timer text tl ll].
    cbn [template_path] in Hnone. subst path.
    unfold detect_and_filter, get_template_path.
    destruct (read cv) as [ok fr]. step.
    unfold cvtColor_BGR2GRAY.
    destruct fr as [img|]; [|eexists; repeat split; auto].
    destruct (shape img) as [|h [|w [|c [|]]]];
      try (eexists; repeat split; auto; fail).
    destruct (h * w =? 0)%nat; [eexists; repeat split; auto|].
    destruct ((c =? 3)%nat || (c =? 4)%nat)%bool;
      eexists; repeat split; auto. }
  destruct Hd as (e & He & Hcase & Hcalls).
  destruct (query_camera_stops cv s He) as (-> & -> & ->).
  rewrite Hcalls. destruct Hcase as [-> | ->]; auto.
Qed.

Lemma tick_before_template_stops_witness :
  template_path Sample.fresh = None /\
  calls (SLOT_query_camera Sample.tick_few Sample.fresh)
  = [E_read; E_cvtColor].
Proof.
  assert (H : template_path Sample.fresh = None) by reflexivity.
  split; [exact H|].
  exact (proj1 (proj2 (@tick_before_template_stops Sample.tick_few _ H))).
Defined.

Lemma handle_keeps_stored_path (ev : Event) (s : My_App) (p : string) :
  template_path s = Some p ->
  exists q, template_path (final (handle ev s)) = Some q.
Proof.
  intro Hp. destruct ev as [dlg| |cv]; cbn [handle].
  - rewrite browse_button_run. cbv zeta.
    destruct (exec_ dlg).
    + destruct (index (selectedFiles dlg) 0) as [q|e]; cbn; eauto.
    + rewrite Hp. cbn. eauto.
  - rewrite toggle_camera_final. destruct (_is_cam_enabled s); cbn; eauto.
  - rewrite (@query_camera_keeps_unless_rendered _ template_path cv); eauto.
Qed.

(** X10.  A stored template path is never removed: once a path is
    stored, a path is stored after every further sequence of events. *)
Theorem stored_path_persists (evs : list Event) (s : My_App) (p : string) :
  template_path s = Some p ->
  exists q, template_path (after evs s) = Some q.
Proof.
  revert s p. induction evs as [|ev evs IH]; intros s p Hp; simpl.
  - eauto.
  - destruct (deliverable s ev).
    + destruct (handle_keeps_stored_path ev s Hp) as [q Hq]. eauto.
    + eauto.
Qed.

Lemma stored_path_persists_witness :
  template_path Sample.watching = Some "box.png" /\
  exists q,
    template_path
      (after [Browse_clicked Sample.cancel; Timeout Sample.tick_degenerate]
             Sample.watching) = Some q.
Proof.
  assert (H : template_path Sample.watching = Some "box.png")
    by (vm_compute; reflexivity).
  split; [exact H|].
  exact (@stored_path_persists _ _ _ H).
Defined.

Lemma handle_flag (ev : Event) (s : My_App) :
  _is_cam_enabled (final (handle ev s)) =
  xorb (_is_cam_enabled s) (Nat.odd (toggles [ev])) /\
  interval (_timer (final (handle ev s))) = interval (_timer s).
Proof.
  destruct (Event_is_toggle ev) as [-> | Hev].
  - cbn [handle]. rewrite toggle_camera_final.
    destruct (_is_cam_enabled s); split; reflexivity.
  - destruct (camera_state_fields (only_toggle_changes_camera Hev s))
      as [-> ->].
    destruct ev; [| congruence |]; split; auto using xorb_false_r.
Qed.

(** X11.  The camera flag after a sequence of events is the flag
    before it, flipped once per click on the toggle button: browse
    clicks and timeouts, delivered or not, do not count. *)
Theorem flag_counts_toggles (evs : list Event) (s : My_App) :
  _is_cam_enabled (after evs s) =
  xorb (_is_cam_enabled s) (Nat.odd (toggles evs)).
Proof.
  revert s. induction evs as [|ev evs IH]; intro s; simpl after.
  - simpl. now rewrite xorb_false_r.
  - rewrite IH.
    assert (Hev : _is_cam_enabled
                    (if deliverable s ev then final (handle ev s) else s)
                  = xorb (_is_cam_enabled s) (Nat.odd (toggles [ev]))).
    { destruct (deliverable s ev) eqn:Hd.
      - apply handle_flag.
      - destruct ev; try discriminate. simpl. now rewrite xorb_false_r. }
    rewrite Hev.
    destruct ev; simpl toggles; rewrite ?Nat.odd_succ, <- ?Nat.negb_odd;
      destruct (_is_cam_enabled s), (Nat.odd (toggles evs)); reflexivity.
Qed.

(** X12.  No sequence of events changes the timer's interval. *)
Theorem interval_never_changes (evs : list Event) (s : My_App) :
  interval (_timer (after evs s)) = interval (_timer s).
Proof.
  revert s. induction evs as [|ev evs IH]; intro s; simpl; [reflexivity|].
  rewrite IH. destruct (deliverable s ev); [apply handle_flag | reflexivity].
Qed.

(** X13.  While the timer is stopped and the toggle button is not
    clicked, nothing reaches the live-image label: after any sequence
    of browse clicks and timeouts the label and the timer are as
    before. *)
Theorem live_label_waits_for_toggle (evs : list Event) (s : My_App) :
  isActive (_timer s) = false ->
  toggles evs = 0 ->
  live_image_label (after evs s) = live_image_label s /\
  isActive (_timer (after evs s)) = false.
Proof.
  revert s. induction evs as [|ev evs IH]; intros s Hoff Hnone; simpl.
  - auto.
  - destruct ev as [dlg| |cv]; simpl in Hnone; try discriminate;
      cbn [deliverable].
    + destruct (IH (final (handle (Browse_clicked dlg) s))) as [-> ->]; auto.
      * cbn [handle].
        now rewrite (@browse_button_keeps _ (fun s => isActive (_timer s)) dlg).
      * split; [|reflexivity]. cbn [handle].
        now rewrite (@browse_button_keeps _ live_image_label dlg).
    + rewrite Hoff. auto.
Qed.

Lemma live_label_waits_for_toggle_witness :
  isActive (_timer Sample.fresh) = false /\
  live_image_label
    (after [Timeout Sample.tick_overlay;
            Browse_clicked (Sample.confirm "box.png");
            Timeout Sample.tick_overlay] Sample.fresh)
  = None.
Proof.
  assert (H : isActive (_timer Sample.fresh) = false) by reflexivity.
  split; [exact H|].
  exact (proj1 (@live_label_waits_for_toggle
                  [Timeout Sample.tick_overlay;
                   Browse_clicked (Sample.confirm "box.png");
                   Timeout Sample.tick_overlay] _ H eq_refl)).
Defined.
